(** * FoxControl-Server: device-control engine and gateway client

  A shallow embedding of [serial.hpp], [server.hpp]/[server.cpp] and
  [gateway.cpp].  Machine integers are kept as [Z] with their 32-bit
  wrap-around written out, the command queue as a list of bytes in FIFO
  order, and the gateway's update loop as a function from the responses
  it receives to the trace of events it produces. *)

From Stdlib Require Import ZArith List String Ascii Bool Lia.
Import ListNotations.
Open Scope Z_scope.

(** ** [kstd::i32] arithmetic *)

Module Int32.

Definition min_signed : Z := -2147483648.
Definition max_signed : Z := 2147483647.
Definition modulus : Z := 4294967296.

Definition in_range (z : Z) : Prop := min_signed <= z <= max_signed.

(** The value a two's-complement 32-bit register holds for [z]. *)
Definition wrap (z : Z) : Z := (z - min_signed) mod modulus + min_signed.

Definition add (a b : Z) : Z := wrap (a + b).
Definition sub (a b : Z) : Z := wrap (a - b).

End Int32.

(** ** serial.hpp *)

Module Serial.

Inductive BaudRate : Type :=
| _50 | _75 | _110 | _134 | _150 | _200 | _300 | _600
| _1200 | _1800 | _2400 | _4800 | _9600 | _19200 | _38400.

(** [rate] is a [kstd::u32]; the comparisons need no arithmetic. *)
Definition find_closest_baud_rate (rate : Z) : BaudRate :=
  if rate <=? 50 then _50
  else if rate <=? 75 then _75
  else if rate <=? 110 then _110
  else if rate <=? 134 then _134
  else if rate <=? 150 then _150
  else if rate <=? 200 then _200
  else if rate <=? 300 then _300
  else if rate <=? 600 then _600
  else if rate <=? 1200 then _1200
  else if rate <=? 1800 then _1800
  else if rate <=? 2400 then _2400
  else if rate <=? 4800 then _4800
  else if rate <=? 9600 then _9600
  else if rate <=? 19200 then _19200
  else if rate <=? 38400 then _38400
  else _9600.

Definition to_baud_rate_count (rate : BaudRate) : Z :=
  match rate with
  | _50 => 50 | _75 => 75 | _110 => 110 | _134 => 134
  | _150 => 150 | _200 => 200 | _300 => 300 | _600 => 600
  | _1200 => 1200 | _1800 => 1800 | _2400 => 2400 | _4800 => 4800
  | _9600 => 9600 | _19200 => 19200 | _38400 => 38400
  end.

End Serial.

(** ** server.hpp, server.cpp *)

Module Server.

Definition MESSAGE_ON : ascii := "i"%char.
Definition MESSAGE_OFF : ascii := "o"%char.
Definition MESSAGE_MODE : ascii := "m"%char.
Definition MESSAGE_LOWER : ascii := "l"%char.
Definition MESSAGE_HIGHER : ascii := "h"%char.

Definition MAX_SPEED : Z := 32.
Definition MIN_SPEED : Z := 0.

(** Modelled from the spec: [dto::Mode] is declared in dto.hpp, which is not
    among the sources.  The spec gives it as [enum{DEFAULT, ...}]; the
    enumerators after [DEFAULT] are kept by their rank. *)
Inductive Mode : Type :=
| DEFAULT
| OTHER (rank : nat).

Record DeviceState : Type := mkDeviceState {
  is_on : bool;
  mode : Mode;
  target_speed : Z;
  actual_speed : Z
}.

(** The members of [Server] the device engine works on.  The serial
    connection is represented by the bytes it delivers (see [rx_loop]); the
    monitor pointer is left out, the monitor being a separate collaborator. *)
Record Server : Type := mkServer {
  _is_running : bool;
  _device_state : DeviceState;
  _message_queue : list ascii
}.

(** The members after construction: the atomics are value-initialised and
    the queue is empty. *)
Definition initial : Server :=
  mkServer true (mkDeviceState false DEFAULT 0 0) [].

Definition get_actual_speed (self : Server) : Z :=
  actual_speed (_device_state self).

Definition get_target_speed (self : Server) : Z :=
  target_speed (_device_state self).

Definition get_mode (self : Server) : Mode :=
  mode (_device_state self).

Definition accepts_commands (self : Server) : bool :=
  get_actual_speed self =? get_target_speed self.

(** Stores to single members. *)
Definition store_is_on (v : bool) (self : Server) : Server :=
  let st := _device_state self in
  mkServer (_is_running self)
           (mkDeviceState v (mode st) (target_speed st) (actual_speed st))
           (_message_queue self).

Definition store_mode (v : Mode) (self : Server) : Server :=
  let st := _device_state self in
  mkServer (_is_running self)
           (mkDeviceState (is_on st) v (target_speed st) (actual_speed st))
           (_message_queue self).

Definition store_target_speed (v : Z) (self : Server) : Server :=
  let st := _device_state self in
  mkServer (_is_running self)
           (mkDeviceState (is_on st) (mode st) v (actual_speed st))
           (_message_queue self).

Definition store_actual_speed (v : Z) (self : Server) : Server :=
  let st := _device_state self in
  mkServer (_is_running self)
           (mkDeviceState (is_on st) (mode st) (target_speed st) v)
           (_message_queue self).

Definition store_is_running (v : bool) (self : Server) : Server :=
  mkServer v (_device_state self) (_message_queue self).

(** [_message_queue.push(message)] under the queue mutex. *)
Definition push (message : ascii) (self : Server) : Server :=
  mkServer (_is_running self) (_device_state self)
           (_message_queue self ++ [message]).

(** [for (auto i = 0; i < diff; ++i) _message_queue.push(message)]: the body
    runs [diff] times, and not at all when [diff <= 0]. *)
Fixpoint push_times (count : nat) (message : ascii) (self : Server) : Server :=
  match count with
  | O => self
  | S count' => push_times count' message (push message self)
  end.

Definition push_loop (diff : Z) (message : ascii) (self : Server) : Server :=
  push_times (Z.to_nat diff) message self.

Definition handle_feedback (feedback : string) (self : Server) : Server :=
  if String.eqb feedback "power_on" then store_actual_speed 1 self
  else if String.eqb feedback "power_off" then store_actual_speed 0 self
  else if String.eqb feedback "speed_up"
       then store_actual_speed (Int32.add (get_actual_speed self) 1) self
  else if String.eqb feedback "speed_down"
       then store_actual_speed (Int32.sub (get_actual_speed self) 1) self
  else self.

Definition set_is_on (on : bool) (self : Server) : Server :=
  if Bool.eqb (is_on (_device_state self)) on then self
  else
    let self := push (if on then MESSAGE_ON else MESSAGE_OFF) self in
    let self := store_is_on on self in
    let new_speed := if on then 1 else 0 in
    store_target_speed new_speed self.

(** The part of [set_speed] after the power coupling: the step commands and
    the store of the new target. *)
Definition set_speed_steps (speed : Z) (self : Server) : Server :=
  let self :=
    if get_target_speed self <? speed then
      let diff := Int32.sub speed (get_target_speed self) in
      push_loop diff MESSAGE_HIGHER self
    else if get_target_speed self >? speed then
      let diff := Int32.sub (get_target_speed self) speed in
      push_loop diff MESSAGE_LOWER self
    else self in
  store_target_speed speed self.

Definition set_speed (speed : Z) (self : Server) : Server :=
  if negb (is_on (_device_state self)) && (speed >? 0) then
    set_speed_steps speed (set_is_on true self)
  else if is_on (_device_state self) && (speed =? 0) then
    set_is_on false self
  else
    set_speed_steps speed self.

Definition set_mode (m : Mode) (self : Server) : Server :=
  if negb (is_on (_device_state self)) then self
  else store_mode m self.

(** *** The receive loop *)

(** One call of [try_read]: [Some c] when a byte arrived within the
    timeout, [None] when it did not. *)
Definition Read : Type := option ascii.

Definition line_feed : ascii := "010"%char.
Definition carriage_return : ascii := "013"%char.

(** The inner [while (try_read(current))] loop: bytes are appended to
    [buffer] until a line feed is read or a read yields nothing.  The reads
    of a run end the way a read that yields nothing does. *)
Fixpoint read_line (reads : list Read) (buffer : list ascii)
  : list ascii * list Read :=
  match reads with
  | [] => (buffer, [])
  | None :: rest => (buffer, rest)
  | Some current :: rest =>
      if Ascii.eqb current line_feed then (buffer, rest)
      else read_line rest (buffer ++ [current])
  end.

(** [std::string(buffer.data())] after [buffer.push_back('\0')]: the
    characters up to the first NUL. *)
Fixpoint c_str (buffer : list ascii) : string :=
  match buffer with
  | [] => EmptyString
  | c :: rest =>
      if Ascii.eqb c zero then EmptyString else String c (c_str rest)
  end.

Fixpoint ends_with (s : string) (c : ascii) : bool :=
  match s with
  | EmptyString => false
  | String a EmptyString => Ascii.eqb a c
  | String _ rest => ends_with rest c
  end.

Definition strip_carriage_return (feedback : string) : string :=
  if ends_with feedback carriage_return
  then substring 0 (String.length feedback - 1) feedback
  else feedback.

(** The line handed to [handle_feedback] for a non-empty buffer. *)
Definition decode_line (buffer : list ascii) : string :=
  strip_carriage_return (c_str (buffer ++ [zero])).

(** One pass of the body of [rx_loop]'s outer loop: the reads left over,
    the server afterwards and the lines written to the device log. *)
Definition rx_iteration (reads : list Read) (self : Server)
  : list Read * Server * list string :=
  let '(buffer, rest) := read_line reads [] in
  match buffer with
  | [] => (rest, self, [])
  | _ :: _ =>
      let feedback := decode_line buffer in
      (rest, handle_feedback feedback self, [feedback])
  end.

(** [rx_loop] over the reads of a run; it stops when [_is_running] is
    cleared or the reads are used up. *)
Fixpoint rx_loop (fuel : nat) (reads : list Read) (self : Server)
  : Server * list string :=
  match fuel with
  | O => (self, [])
  | S fuel' =>
      if negb (_is_running self) then (self, [])
      else
        match reads with
        | [] => (self, [])
        | _ :: _ =>
            let '(rest, self', log) := rx_iteration reads self in
            let '(self'', log') := rx_loop fuel' rest self' in
            (self'', log ++ log')
        end
  end.

(** Every pass over non-empty reads uses up at least one of them, so their
    number is enough fuel. *)
Definition receive (reads : list Read) (self : Server) : Server * list string :=
  rx_loop (List.length reads) reads self.

(** The bytes of a text as successful reads. *)
Definition bytes (text : string) : list Read :=
  map Some (list_ascii_of_string text).

(** *** The console commands *)

Definition command_exit (self : Server) : Server :=
  let self :=
    if is_on (_device_state self)
    then store_is_on false (push MESSAGE_OFF self)
    else self in
  store_is_running false self.

Definition command_power (self : Server) : Server :=
  set_is_on (negb (is_on (_device_state self))) self.

Definition command_mode (self : Server) : Server :=
  if negb (is_on (_device_state self)) then self
  else set_mode DEFAULT self.

Definition command_lower (self : Server) : Server :=
  let speed := get_target_speed self in
  if negb (is_on (_device_state self)) || (speed =? 0) then self
  else set_speed (Int32.sub speed 1) self.

Definition command_higher (self : Server) : Server :=
  let speed := get_target_speed self in
  if negb (is_on (_device_state self)) || (speed =? MAX_SPEED) then self
  else set_speed (Int32.add speed 1) self.

(** One pass of [command_loop] on the line [command]. *)
Definition command_step (command : string) (self : Server) : Server :=
  if String.eqb command "" then self
  else if String.eqb command "help" then self
  else if String.eqb command "exit" then command_exit self
  else if String.eqb command "power" then command_power self
  else if String.eqb command "mode" then command_mode self
  else if String.eqb command "lower" then command_lower self
  else if String.eqb command "higher" then command_higher self
  else self.

(** *** Runs *)

(** What the threads and callers do to a server.  A run takes the
    operations one after the other: the interleaving of the threads is
    taken at the grain of whole operations.  A console line is applied
    whether or not the server still runs; [command_loop] reads none once
    [_is_running] is cleared, so the runs here include those of the
    program. *)
Inductive Op : Type :=
| OpSetIsOn (on : bool)
| OpSetSpeed (speed : Z)
| OpSetMode (m : Mode)
| OpReceive (reads : list Read)
| OpCommand (command : string).

Definition apply (op : Op) (self : Server) : Server :=
  match op with
  | OpSetIsOn on => set_is_on on self
  | OpSetSpeed speed => set_speed speed self
  | OpSetMode m => set_mode m self
  | OpReceive reads => fst (receive reads self)
  | OpCommand command => command_step command self
  end.

Definition run (ops : list Op) (self : Server) : Server :=
  fold_left (fun s op => apply op s) ops self.

(** The three mutation operations. *)
Definition is_mutation (op : Op) : bool :=
  match op with
  | OpSetIsOn _ | OpSetSpeed _ | OpSetMode _ => true
  | _ => false
  end.

(** *** The transmit loop *)

(** What a pass of [tx_loop] does with the command it pops: the write
    succeeds, or it fails and the command is dropped with a warning. *)
Inductive Transmission : Type :=
| Sent (message : ascii)
| Dropped (message : ascii).

(** One pass of the body of [tx_loop]'s loop; [write_ok] is what
    [_connection.write] answers in this pass (it is not called when the
    queue is empty). *)
Definition tx_iteration (write_ok : bool) (self : Server)
  : Server * list Transmission :=
  match _message_queue self with
  | [] => (self, [])
  | message :: rest =>
      (mkServer (_is_running self) (_device_state self) rest,
       [if write_ok then Sent message else Dropped message])
  end.

(** [tx_loop] over the passes of a run, one write answer per pass; it stops
    when [_is_running] is cleared. *)
Fixpoint tx_loop (writes : list bool) (self : Server)
  : Server * list Transmission :=
  match writes with
  | [] => (self, [])
  | write_ok :: rest =>
      if negb (_is_running self) then (self, [])
      else
        let '(self', sent) := tx_iteration write_ok self in
        let '(self'', sent') := tx_loop rest self' in
        (self'', sent ++ sent')
  end.

End Server.

(** ** gateway.cpp *)

Module Gateway.

#[local] Set Warnings "-register-all".

(** The JSON values the client inspects, with the [nlohmann::json]
    queries the code uses. *)
Inductive Json : Type :=
| JNull
| JBool (b : bool)
| JNumber (n : Z)
| JString (s : string)
| JArray (items : list Json)
| JObject (members : list (string * Json)).

Definition is_object (j : Json) : bool :=
  match j with JObject _ => true | _ => false end.

Definition is_array (j : Json) : bool :=
  match j with JArray _ => true | _ => false end.

Fixpoint lookup (key : string) (members : list (string * Json)) : option Json :=
  match members with
  | [] => None
  | (k, v) :: rest => if String.eqb k key then Some v else lookup key rest
  end.

(** [j.contains(key)]: false for anything but an object holding [key]. *)
Definition contains (j : Json) (key : string) : bool :=
  match j with
  | JObject members =>
      match lookup key members with Some _ => true | None => false end
  | _ => false
  end.

(** [j[key]] where [contains] holds. *)
Definition at_key (j : Json) (key : string) : Json :=
  match j with
  | JObject members =>
      match lookup key members with Some v => v | None => JNull end
  | _ => JNull
  end.

(** What [nlohmann::json::parse(res->body)] does with a body: it throws an
    exception with message [what], or yields a value. *)
Inductive Body : Type :=
| Unparsable (what : string)
| Parsed (j : Json).

Record Response : Type := mkResponse {
  status : Z;
  body : Body
}.

(** [httplib::Result]: [None] when the request produced no response. *)
Definition Result : Type := option Response.

(** Modelled from the spec: [dto::Task] is declared in dto.hpp, which is not
    among the sources.  The spec gives it as one of
    [{Power{is_on}, Speed{speed}, Mode{mode}}]. *)
Inductive Task : Type :=
| POWER (is_on : bool)
| SPEED (speed : Z)
| MODE (mode : Server.Mode).

Record StateSnapshot : Type := mkStateSnapshot {
  snap_is_on : bool;
  snap_accepts_commands : bool;
  snap_target_speed : Z;
  snap_actual_speed : Z;
  snap_mode : Server.Mode
}.

Inductive Request : Type :=
| NewSession
| Fetch
| SetOnline (is_online : bool)
| SetState (state : StateSnapshot).

Inductive Level : Type := LevelError | LevelWarn | LevelInfo.

(** The second argument of "Could not fetch session data: code {}/{}". *)
Inductive Detail : Type :=
| ErrorField (value : Json)
| ExceptionText (what : string).

Inductive Message : Type :=
| StartingClient
| ConnectingTo
| InvalidResponse
| FetchFailed (code : Z) (detail : Detail)
| InvalidSessionResponse
| CreatedSessionPassword (password : string)
| MalformedResponseBody
| TasksNotAnArray.

(** What a run of the gateway thread does, in order. *)
Inductive Event : Type :=
| EvLog (level : Level) (message : Message)
| EvPost (request : Request)
| EvCall (task : Task)
| EvSleep (milliseconds : Z).

Record Gateway : Type := mkGateway {
  _update_rate : Z;
  _session_password : string
}.

Definition decode_failure : string := "Could not decode gateway error".

Definition check_status (res : Result) : bool * list Event :=
  match res with
  | None => (false, [EvLog LevelError InvalidResponse])
  | Some r =>
      if status r =? 200 then (true, [])
      else
        match body r with
        | Parsed res_body =>
            if contains res_body "error"
            then (false, [EvLog LevelError
                            (FetchFailed (status r)
                                         (ErrorField (at_key res_body "error")))])
            else (false, [EvLog LevelError
                            (FetchFailed (status r)
                                         (ExceptionText decode_failure))])
        | Unparsable what =>
            (false, [EvLog LevelError
                       (FetchFailed (status r) (ExceptionText what))])
        end
  end.

Definition broadcast_is_online (is_online : bool) (res : Result) : list Event :=
  EvPost (SetOnline is_online) :: snd (check_status res).

Definition snapshot (server : Server.Server) : StateSnapshot :=
  mkStateSnapshot (Server.is_on (Server._device_state server))
                  (Server.accepts_commands server)
                  (Server.get_target_speed server)
                  (Server.get_actual_speed server)
                  (Server.get_mode server).

Definition broadcast_state (server : Server.Server) (res : Result) : list Event :=
  EvPost (SetState (snapshot server)) :: snd (check_status res).

(** How a call ends: it returns a value, or an exception leaves a
    [noexcept] function and the process is terminated. *)
Inductive Outcome (A : Type) : Type :=
| Returned (value : A)
| Terminated.

Arguments Returned {A} value.
Arguments Terminated {A}.

Definition create_session (res : Result) (self : Gateway)
  : list Event * Outcome (bool * Gateway) :=
  let '(ok, logs) := check_status res in
  let trace := EvPost NewSession :: logs in
  if negb ok then
    (trace ++ [EvLog LevelWarn InvalidSessionResponse], Returned (false, self))
  else
    match res with
    | Some (mkResponse _ (Parsed res_body)) =>
        if negb (contains res_body "password") then
          (trace ++ [EvLog LevelWarn InvalidSessionResponse],
           Returned (false, self))
        else
          match at_key res_body "password" with
          | JString password =>
              (trace ++ [EvLog LevelInfo (CreatedSessionPassword password)],
               Returned (true, mkGateway (_update_rate self) password))
          | _ => (trace, Terminated)
          end
    | _ => (trace, Terminated)
    end.

Definition dispatch (task : Task) (server : Server.Server) : Server.Server :=
  match task with
  | POWER is_on => Server.set_is_on is_on server
  | SPEED speed => Server.set_speed speed server
  | MODE mode => Server.set_mode mode server
  end.

(** The responses one pass of the poll loop receives. *)
Record Cycle : Type := mkCycle {
  fetch_response : Result;
  setstate_response : Result
}.

(** The responses of a whole run.  [cycles] holds one entry per pass of the
    poll loop: [_is_running] is read as true before each of them and as
    false after the last. *)
Record Environment : Type := mkEnvironment {
  online_response : Result;
  session_response : Result;
  cycles : list Cycle;
  offline_response : Result
}.

Section Decoder.

(** [dto::Task::deserialize] (dto.hpp), the decoder of one task
    descriptor.  It is not among the sources and is taken as given: it
    yields the task, or [None] when an exception leaves it. *)
Variable deserialize : Json -> option Task.

(** The [for (const auto& task: tasks)] loop: every element is decoded and
    dispatched in turn; an exception from the decoder leaves the [noexcept]
    loop with the earlier tasks already applied. *)
Fixpoint dispatch_tasks (tasks : list Json) (server : Server.Server)
  : list Event * Outcome Server.Server :=
  match tasks with
  | [] => ([], Returned server)
  | task :: rest =>
      match deserialize task with
      | None => ([], Terminated)
      | Some task_dto =>
          let '(trace, outcome) :=
            dispatch_tasks rest (dispatch task_dto server) in
          (EvCall task_dto :: trace, outcome)
      end
  end.

(** The body of the [while (self->_is_running)] loop. *)
Definition poll_iteration (self : Gateway) (cycle : Cycle)
           (server : Server.Server)
  : list Event * Outcome Server.Server :=
  let response := fetch_response cycle in
  let '(ok, logs) := check_status response in
  let trace := EvPost Fetch :: logs in
  if negb ok then (trace, Returned server)
  else
    match response with
    | Some (mkResponse _ (Parsed res_body)) =>
        if negb (is_object res_body) || negb (contains res_body "tasks") then
          (trace ++ [EvLog LevelWarn MalformedResponseBody], Returned server)
        else
          match at_key res_body "tasks" with
          | JArray tasks =>
              match dispatch_tasks tasks server with
              | (calls, Returned server') =>
                  (trace ++ calls
                         ++ broadcast_state server' (setstate_response cycle)
                         ++ [EvSleep (_update_rate self)],
                   Returned server')
              | (calls, Terminated) => (trace ++ calls, Terminated)
              end
          | _ => (trace ++ [EvLog LevelWarn TasksNotAnArray], Returned server)
          end
    | _ => (trace, Terminated)
    end.

Fixpoint poll_loop (self : Gateway) (cycles : list Cycle)
         (server : Server.Server)
  : list Event * Outcome Server.Server :=
  match cycles with
  | [] => ([], Returned server)
  | cycle :: rest =>
      match poll_iteration self cycle server with
      | (trace, Returned server') =>
          let '(trace', outcome) := poll_loop self rest server' in
          (trace ++ trace', outcome)
      | (trace, Terminated) => (trace, Terminated)
      end
  end.

Definition update_loop (env : Environment) (self : Gateway)
           (server : Server.Server)
  : list Event * Outcome (Gateway * Server.Server) :=
  let start :=
    [EvLog LevelInfo StartingClient; EvLog LevelInfo ConnectingTo]
      ++ broadcast_is_online true (online_response env) in
  match create_session (session_response env) self with
  | (trace, Terminated) => (start ++ trace, Terminated)
  | (trace, Returned (false, self')) =>
      (start ++ trace, Returned (self', server))
  | (trace, Returned (true, self')) =>
      match poll_loop self' (cycles env) server with
      | (polls, Terminated) => (start ++ trace ++ polls, Terminated)
      | (polls, Returned server') =>
          (start ++ trace ++ polls
                 ++ broadcast_is_online false (offline_response env),
           Returned (self', server'))
      end
  end.

End Decoder.

(** Observations on traces. *)
Definition is_post_online (is_online : bool) (e : Event) : bool :=
  match e with
  | EvPost (SetOnline b) => Bool.eqb b is_online
  | _ => false
  end.

Definition is_post_state (e : Event) : bool :=
  match e with EvPost (SetState _) => true | _ => false end.

Definition is_call (e : Event) : bool :=
  match e with EvCall _ => true | _ => false end.

Definition is_sleep (e : Event) : bool :=
  match e with EvSleep _ => true | _ => false end.

Definition is_error_log (e : Event) : bool :=
  match e with EvLog LevelError _ => true | _ => false end.

Definition count (p : Event -> bool) (trace : list Event) : nat :=
  List.length (filter p trace).

(** The response is HTTP 200. *)
Definition is_http_200 (res : Result) : bool :=
  match res with
  | Some r => status r =? 200
  | None => false
  end.

(** The error entry [check_status] writes for a response that is not
    HTTP 200. *)
Definition error_entry (res : Result) : Message :=
  match res with
  | None => InvalidResponse
  | Some r =>
      FetchFailed (status r)
        match body r with
        | Parsed res_body =>
            if contains res_body "error"
            then ErrorField (at_key res_body "error")
            else ExceptionText decode_failure
        | Unparsable what => ExceptionText what
        end
  end.

(** Whether [create_session] returns true. *)
Definition session_created (res : Result) (self : Gateway) : bool :=
  match snd (create_session res self) with
  | Returned (true, _) => true
  | _ => false
  end.

(** [reset_session]: the responses are those to the two /setonline posts
    and to /newsession, in the order the requests are made. *)
Definition reset_session (offline_res online_res session_res : Result)
           (self : Gateway)
  : list Event * Outcome Gateway :=
  let self := mkGateway (_update_rate self) "" in
  let trace :=
    broadcast_is_online false offline_res
      ++ broadcast_is_online true online_res in
  match create_session session_res self with
  | (session, Returned (_, self')) => (trace ++ session, Returned self')
  | (session, Terminated) => (trace ++ session, Terminated)
  end.

Definition is_fetch (e : Event) : bool :=
  match e with EvPost Fetch => true | _ => false end.

Definition is_warning (e : Event) : bool :=
  match e with EvLog LevelWarn _ => true | _ => false end.

End Gateway.

(** ** monitor.hpp, monitor.cpp: the parts that log and that drive the
    server *)

Module Monitor.

Definition MAX_CONSOLE_BUFFER_SIZE : nat := 256.

(** The members of [Monitor] used by the log buffers and by the speed
    slider.  A render task is kept as the speed its closure would store in
    the slider members; nothing in the sources runs these tasks. *)
Record Monitor : Type := mkMonitor {
  _is_running : bool;
  _is_mouse_down : bool;
  _auto_power_state : bool;
  _current_slider_speed : Z;
  _previous_slider_speed : Z;
  _render_tasks : list Z;
  _device_log_buffer : list string;
  _gateway_log_buffer : list string
}.

Definition set_slider_speed (speed : Z) (m : Monitor) : Monitor :=
  mkMonitor (_is_running m) (_is_mouse_down m) (_auto_power_state m)
            (_current_slider_speed m) (_previous_slider_speed m)
            (_render_tasks m ++ [speed])
            (_device_log_buffer m) (_gateway_log_buffer m).

(** [buffer.erase(buffer.begin())] when the buffer is full, then
    [buffer.emplace_back(s)]. *)
Definition append_bounded (s : string) (buffer : list string) : list string :=
  (if Nat.eqb (List.length buffer) MAX_CONSOLE_BUFFER_SIZE
   then tl buffer else buffer) ++ [s].

Definition log_device (s : string) (m : Monitor) : Monitor :=
  if negb (_is_running m) then m
  else
    mkMonitor (_is_running m) (_is_mouse_down m) (_auto_power_state m)
              (_current_slider_speed m) (_previous_slider_speed m)
              (_render_tasks m)
              (append_bounded s (_device_log_buffer m))
              (_gateway_log_buffer m).

Definition log_gateway (s : string) (m : Monitor) : Monitor :=
  if negb (_is_running m) then m
  else
    mkMonitor (_is_running m) (_is_mouse_down m) (_auto_power_state m)
              (_current_slider_speed m) (_previous_slider_speed m)
              (_render_tasks m)
              (_device_log_buffer m)
              (append_bounded s (_gateway_log_buffer m)).

(** [get_device_log]: every line followed by a line feed. *)
Fixpoint join_lines (buffer : list string) : string :=
  match buffer with
  | [] => EmptyString
  | line :: rest =>
      (line ++ String Server.line_feed EmptyString ++ join_lines rest)%string
  end.

Definition get_device_log (m : Monitor) : string :=
  join_lines (_device_log_buffer m).

(** [Server::set_is_on] and [Server::set_speed] with this monitor attached:
    the server does what it does without one, and the monitor is handed
    the slider update at the places where the server calls
    [_monitor->set_slider_speed]. *)
Definition server_set_is_on (on : bool) (ms : Monitor * Server.Server)
  : Monitor * Server.Server :=
  let '(m, server) := ms in
  if Bool.eqb (Server.is_on (Server._device_state server)) on then ms
  else (set_slider_speed (if on then 1 else 0) m, Server.set_is_on on server).

Definition server_set_speed (speed : Z) (ms : Monitor * Server.Server)
  : Monitor * Server.Server :=
  let '(m, server) := ms in
  if negb (Server.is_on (Server._device_state server)) && (speed >? 0) then
    let '(m', server') := server_set_is_on true ms in
    (set_slider_speed speed m', Server.set_speed_steps speed server')
  else if Server.is_on (Server._device_state server) && (speed =? 0) then
    server_set_is_on false ms
  else
    (set_slider_speed speed m, Server.set_speed_steps speed server).

Definition update_speed_if_needed (ms : Monitor * Server.Server)
  : Monitor * Server.Server :=
  let '(m, server) := ms in
  if _is_mouse_down m
     || (_previous_slider_speed m =? _current_slider_speed m)
  then ms
  else
    let m :=
      mkMonitor (_is_running m) (_is_mouse_down m) (_auto_power_state m)
                (_current_slider_speed m) (_current_slider_speed m)
                (_render_tasks m)
                (_device_log_buffer m) (_gateway_log_buffer m) in
    let ms := (m, server) in
    let ms :=
      if _auto_power_state (fst ms)
         && negb (Server.is_on (Server._device_state (snd ms)))
         && (_current_slider_speed (fst ms) >? 0)
      then server_set_is_on true ms else ms in
    let ms :=
      if _auto_power_state (fst ms)
         && Server.is_on (Server._device_state (snd ms))
         && (_current_slider_speed (fst ms) =? 0)
      then server_set_is_on false ms else ms in
    server_set_speed (_current_slider_speed (fst ms)) ms.

End Monitor.

(** ** Vocabulary of the statements *)

Import Server.

(** The supported rates are the enumerators of [Serial.BaudRate]. *)
Definition supported_rates : list Serial.BaudRate :=
  [Serial._50; Serial._75; Serial._110; Serial._134; Serial._150;
   Serial._200; Serial._300; Serial._600; Serial._1200; Serial._1800;
   Serial._2400; Serial._4800; Serial._9600; Serial._19200; Serial._38400].

(** The five opcodes of server.hpp. *)
Definition opcodes : list ascii :=
  [MESSAGE_ON; MESSAGE_OFF; MESSAGE_HIGHER; MESSAGE_LOWER; MESSAGE_MODE].

(** The opcodes some operation does append. *)
Definition sent_opcodes : list ascii :=
  [MESSAGE_ON; MESSAGE_OFF; MESSAGE_HIGHER; MESSAGE_LOWER].

(** The commands [op] appends to the queue of [self]. *)
Definition enqueued (op : Op) (self : Server) : list ascii :=
  skipn (List.length (_message_queue self)) (_message_queue (apply op self)).

(** Both speeds lie between [MIN_SPEED] and [MAX_SPEED]. *)
Definition speeds_in_range (self : Server) : Prop :=
  (MIN_SPEED <= get_target_speed self <= MAX_SPEED) /\
  (MIN_SPEED <= get_actual_speed self <= MAX_SPEED).

Definition target_in_range (self : Server) : Prop :=
  MIN_SPEED <= get_target_speed self <= MAX_SPEED.

(** A [set_speed] whose argument lies between [MIN_SPEED] and [MAX_SPEED];
    any other operation. *)
Definition speed_argument_in_range (op : Op) : Prop :=
  match op with
  | OpSetSpeed speed => MIN_SPEED <= speed <= MAX_SPEED
  | _ => True
  end.

(** The operations that reach a call of [set_mode] when the device is on:
    the call itself and the console command [mode]. *)
Definition invokes_set_mode (op : Op) : bool :=
  match op with
  | OpSetMode _ => true
  | OpCommand command => String.eqb command "mode"
  | _ => false
  end.

(** A decoder of task descriptors for the worked runs: a number is a speed
    task, a boolean a power task, an object a mode task; it fails on
    anything else. *)
Definition sample_deserialize (j : Gateway.Json) : option Gateway.Task :=
  match j with
  | Gateway.JNumber n => Some (Gateway.SPEED n)
  | Gateway.JBool b => Some (Gateway.POWER b)
  | Gateway.JObject _ => Some (Gateway.MODE DEFAULT)
  | _ => None
  end.

(** The bytes of a chunk before its first NUL. *)
Fixpoint cut_at_nul (chunk : list ascii) : list ascii :=
  match chunk with
  | [] => []
  | c :: rest => if Ascii.eqb c zero then [] else c :: cut_at_nul rest
  end.

(** HTTP 403 with the body [{"error":"bad password"}]. *)
Definition bad_password : Gateway.Result :=
  Some (Gateway.mkResponse 403
          (Gateway.Parsed
             (Gateway.JObject [("error"%string,
                                Gateway.JString "bad password")]))).

(** HTTP 200 with an empty object as body. *)
Definition accepted : Gateway.Result :=
  Some (Gateway.mkResponse 200 (Gateway.Parsed (Gateway.JObject []))).

Definition sample_gateway : Gateway.Gateway := Gateway.mkGateway 1000 "".

(** Modelled from the spec: the device's firmware is not among the
    sources.  The token with which the device reports each command it has
    carried out, after the serial protocol of the spec: [power_on] for ON,
    [power_off] for OFF, [speed_up] for HIGHER and [speed_down] for LOWER;
    no token for any other byte. *)
Definition acknowledgement (message : ascii) : string :=
  if Ascii.eqb message MESSAGE_ON then "power_on"
  else if Ascii.eqb message MESSAGE_OFF then "power_off"
  else if Ascii.eqb message MESSAGE_HIGHER then "speed_up"
  else if Ascii.eqb message MESSAGE_LOWER then "speed_down"
  else "".

(** The server after the feedback for each of [messages], in order. *)
Definition acknowledge_all (messages : list ascii) (self : Server) : Server :=
  fold_left (fun s message => handle_feedback (acknowledgement message) s)
            messages self.

(** The power state and the target agree: a device that is on has a
    target between 1 and [MAX_SPEED], one that is off has target 0. *)
Definition power_agrees (self : Server) : Prop :=
  if is_on (_device_state self)
  then 1 <= get_target_speed self <= MAX_SPEED
  else get_target_speed self = 0.

(** A device that is on has a target between 1 and [MAX_SPEED]; the target
    lies between 0 and [MAX_SPEED] in any case. *)
Definition on_has_target (self : Server) : Prop :=
  0 <= get_target_speed self <= MAX_SPEED /\
  (is_on (_device_state self) = true -> 1 <= get_target_speed self).

(** What the feedback for [message] does to a speed. *)
Definition acknowledged_speed (speed : Z) (message : ascii) : Z :=
  get_actual_speed
    (handle_feedback (acknowledgement message)
                     (store_actual_speed speed initial)).

(** The speed a device ends at that starts at 0 and carries out every
    command of the queue. *)
Definition planned_speed (self : Server) : Z :=
  fold_left acknowledged_speed (_message_queue self) 0.

Definition is_exit (op : Op) : bool :=
  match op with
  | OpCommand command => String.eqb command "exit"
  | _ => false
  end.

(** A complete line on the wire: its bytes, then a line feed. *)
Definition wire_line (chunk : list ascii) : list Read :=
  map Some chunk ++ [Some line_feed].

(** What the receive loop does with a chunk: nothing when it is empty,
    [handle_feedback] on the decoded line otherwise. *)
Definition process_chunk (self : Server) (chunk : list ascii) : Server :=
  match chunk with
  | [] => self
  | _ :: _ => handle_feedback (decode_line chunk) self
  end.

Definition chunk_log (chunk : list ascii) : list string :=
  match chunk with
  | [] => []
  | _ :: _ => [decode_line chunk]
  end.

Definition transmission_of (entry : bool * ascii) : Transmission :=
  if fst entry then Sent (snd entry) else Dropped (snd entry).

(** ** Proof steps used throughout *)

(** Case analysis on every string comparison of the goal, as in the chains
    of [handle_feedback] and [command_step]. *)
Ltac case_strings :=
  repeat match goal with
         | |- context [String.eqb ?a ?b] => destruct (String.eqb a b)
         end.

(** Opens the 32-bit bounds for [lia]. *)
Ltac int32_bounds :=
  unfold Int32.in_range, Int32.min_signed, Int32.max_signed in *.

(** ** Machine arithmetic *)

Lemma wrap_in_range z : Int32.in_range (Int32.wrap z).
Proof.
  unfold Int32.in_range, Int32.wrap, Int32.min_signed, Int32.max_signed,
    Int32.modulus.
  pose proof (Z.mod_pos_bound (z - -2147483648) 4294967296 ltac:(lia)).
  lia.
Qed.

Lemma wrap_small z : Int32.in_range z -> Int32.wrap z = z.
Proof.
  unfold Int32.in_range, Int32.wrap, Int32.min_signed, Int32.max_signed,
    Int32.modulus.
  intros H. rewrite Z.mod_small by lia. lia.
Qed.

(** ** The baud-rate table *)

Lemma supported_rates_complete (b : Serial.BaudRate) : In b supported_rates.
Proof. destruct b; simpl; tauto. Qed.

(** C10: above 38400 the function answers with the 9600 constant; up to
    38400 it answers with the smallest supported rate that is at least the
    requested one. *)
Theorem find_closest_baud_rate_spec (rate : Z) :
  (38400 < rate -> Serial.find_closest_baud_rate rate = Serial._9600) /\
  (rate <= 38400 ->
   In (Serial.find_closest_baud_rate rate) supported_rates /\
   rate <= Serial.to_baud_rate_count (Serial.find_closest_baud_rate rate) /\
   forall b, In b supported_rates ->
             rate <= Serial.to_baud_rate_count b ->
             Serial.to_baud_rate_count (Serial.find_closest_baud_rate rate)
             <= Serial.to_baud_rate_count b).
Proof.
  unfold Serial.find_closest_baud_rate.
  repeat match goal with
         | |- context [?a <=? ?b] => destruct (Z.leb_spec a b)
         end;
    (split; [intros; first [reflexivity | lia] | intros Hle]);
    try lia;
    (split; [apply supported_rates_complete | split; [simpl; lia |]]);
    intros b _ Hb; destruct b; simpl in *; lia.
Qed.

Lemma find_closest_baud_rate_spec_witness :
  Serial.find_closest_baud_rate 57600 = Serial._9600 /\
  100 <= Serial.to_baud_rate_count (Serial.find_closest_baud_rate 100).
Proof.
  split.
  - apply (proj1 (find_closest_baud_rate_spec 57600)). lia.
  - apply (proj2 (find_closest_baud_rate_spec 100)). lia.
Defined.

(** ** The command queue *)

Lemma push_times_queue count message self :
  _message_queue (push_times count message self)
  = _message_queue self ++ repeat message count.
Proof.
  revert self. induction count as [|count IH]; intros self; simpl.
  - now rewrite app_nil_r.
  - rewrite IH. simpl. now rewrite <- app_assoc.
Qed.

Lemma push_times_state count message self :
  _device_state (push_times count message self) = _device_state self.
Proof.
  revert self. induction count as [|count IH]; intros self; simpl; auto.
  now rewrite IH.
Qed.

Lemma push_times_running count message self :
  _is_running (push_times count message self) = _is_running self.
Proof.
  revert self. induction count as [|count IH]; intros self; simpl; auto.
  now rewrite IH.
Qed.

(** ** [set_is_on] *)

Lemma set_is_on_same on self :
  is_on (_device_state self) = on -> set_is_on on self = self.
Proof.
  intros H. unfold set_is_on. now rewrite H, Bool.eqb_reflx.
Qed.

Lemma set_is_on_queue on self :
  _message_queue (set_is_on on self)
  = _message_queue self
      ++ (if Bool.eqb (is_on (_device_state self)) on then []
          else [if on then MESSAGE_ON else MESSAGE_OFF]).
Proof.
  unfold set_is_on.
  destruct (Bool.eqb (is_on (_device_state self)) on); simpl; auto.
  now rewrite app_nil_r.
Qed.

Lemma set_is_on_is_on on self :
  is_on (_device_state (set_is_on on self)) = on.
Proof.
  unfold set_is_on.
  destruct (Bool.eqb (is_on (_device_state self)) on) eqn:E; simpl; auto.
  now apply Bool.eqb_prop in E.
Qed.

(** C5: [set_is_on b] changes nothing when the device is already in state
    [b]; otherwise it appends exactly one command (ON for true, OFF for
    false), stores [b] in [is_on] and 1 or 0 in [target_speed], and leaves
    the mode, the actual speed and the running flag alone.  A second call
    with the same argument therefore changes nothing, so two calls of
    [set_is_on true] on a device that is off append exactly one ON, and
    [is_on] is true after them in any case. *)
Theorem set_is_on_spec (b : bool) (self : Server) :
  (is_on (_device_state self) = b -> set_is_on b self = self) /\
  (is_on (_device_state self) <> b ->
   set_is_on b self
   = mkServer (_is_running self)
              (mkDeviceState b (mode (_device_state self))
                             (if b then 1 else 0)
                             (actual_speed (_device_state self)))
              (_message_queue self
                 ++ [if b then MESSAGE_ON else MESSAGE_OFF])) /\
  set_is_on b (set_is_on b self) = set_is_on b self /\
  (is_on (_device_state self) = false ->
   _message_queue (set_is_on true (set_is_on true self))
   = _message_queue self ++ [MESSAGE_ON]) /\
  is_on (_device_state (set_is_on true (set_is_on true self))) = true.
Proof.
  split; [apply set_is_on_same|].
  split.
  { intros H. unfold set_is_on.
    destruct (Bool.eqb (is_on (_device_state self)) b) eqn:E.
    - apply Bool.eqb_prop in E. contradiction.
    - reflexivity. }
  split; [apply set_is_on_same, set_is_on_is_on|].
  split.
  - intros H.
    rewrite (set_is_on_same true (set_is_on true self))
      by apply set_is_on_is_on.
    rewrite set_is_on_queue, H. reflexivity.
  - apply set_is_on_is_on.
Qed.

Lemma set_is_on_spec_witness :
  set_is_on false initial = initial /\
  _message_queue (set_is_on true initial) = [MESSAGE_ON] /\
  _message_queue (set_is_on true (set_is_on true initial)) = [MESSAGE_ON].
Proof.
  split; [|split].
  - apply (proj1 (set_is_on_spec false initial)). reflexivity.
  - rewrite (proj1 (proj2 (set_is_on_spec true initial))).
    + reflexivity.
    + simpl. discriminate.
  - apply (proj1 (proj2 (proj2 (proj2 (set_is_on_spec true initial))))).
    reflexivity.
Defined.

(** ** [set_speed] *)

Lemma set_speed_steps_queue speed self :
  _message_queue (set_speed_steps speed self)
  = _message_queue self
      ++ (if get_target_speed self <? speed
          then repeat MESSAGE_HIGHER
                 (Z.to_nat (Int32.sub speed (get_target_speed self)))
          else if get_target_speed self >? speed
          then repeat MESSAGE_LOWER
                 (Z.to_nat (Int32.sub (get_target_speed self) speed))
          else []).
Proof.
  unfold set_speed_steps, push_loop.
  destruct (get_target_speed self <? speed);
    [|destruct (get_target_speed self >? speed)]; simpl;
    rewrite ?push_times_queue; auto.
  now rewrite app_nil_r.
Qed.

Lemma set_speed_steps_state speed self :
  _device_state (set_speed_steps speed self)
  = mkDeviceState (is_on (_device_state self)) (mode (_device_state self))
                  speed (actual_speed (_device_state self)).
Proof.
  unfold set_speed_steps, push_loop.
  destruct (get_target_speed self <? speed);
    [|destruct (get_target_speed self >? speed)]; simpl;
    rewrite ?push_times_state; auto.
Qed.

Lemma set_speed_steps_running speed self :
  _is_running (set_speed_steps speed self) = _is_running self.
Proof.
  unfold set_speed_steps, push_loop.
  destruct (get_target_speed self <? speed);
    [|destruct (get_target_speed self >? speed)]; simpl;
    rewrite ?push_times_running; auto.
Qed.

(** C1, as amended: while the device is on and [t > 0], and provided the
    distance between [t] and the old target fits a signed 32-bit integer,
    [set_speed t] appends exactly [|t - target_speed_old|] step commands,
    all HIGHER when [t] is above the old target and all LOWER when it is
    below, none when they are equal; afterwards [target_speed] is [t] and
    nothing else of the device state has changed. *)
Theorem set_speed_steps_while_on (t : Z) (self : Server) :
  is_on (_device_state self) = true ->
  0 < t ->
  Z.abs (t - get_target_speed self) <= Int32.max_signed ->
  _message_queue (set_speed t self)
  = _message_queue self
      ++ repeat (if get_target_speed self <? t
                 then MESSAGE_HIGHER else MESSAGE_LOWER)
                (Z.to_nat (Z.abs (t - get_target_speed self))) /\
  get_target_speed (set_speed t self) = t /\
  _device_state (set_speed t self)
  = mkDeviceState true (mode (_device_state self)) t
                  (actual_speed (_device_state self)).
Proof.
  intros Hon Hpos Hfit.
  assert (Hstep : set_speed t self = set_speed_steps t self).
  { unfold set_speed. rewrite Hon. simpl.
    destruct (Z.eqb_spec t 0); [lia | reflexivity]. }
  rewrite Hstep. unfold get_target_speed at 3.
  rewrite set_speed_steps_state, set_speed_steps_queue, Hon. simpl.
  split; [|split; reflexivity].
  f_equal.
  unfold Int32.max_signed in Hfit.
  destruct (Z.ltb_spec (get_target_speed self) t).
  - unfold Int32.sub. rewrite wrap_small.
    + f_equal. f_equal. lia.
    + int32_bounds. lia.
  - destruct (Z.gtb_spec (get_target_speed self) t).
    + unfold Int32.sub. rewrite wrap_small.
      * f_equal. f_equal. lia.
      * int32_bounds. lia.
    + replace (t - get_target_speed self) with 0 by lia. reflexivity.
Qed.

Lemma set_speed_steps_while_on_witness :
  _message_queue (set_speed 5 (set_speed 2 (set_is_on true initial)))
  = _message_queue (set_speed 2 (set_is_on true initial))
      ++ [MESSAGE_HIGHER; MESSAGE_HIGHER; MESSAGE_HIGHER] /\
  get_target_speed (set_speed 5 (set_speed 2 (set_is_on true initial))) = 5.
Proof.
  pose proof (set_speed_steps_while_on
                5 (set_speed 2 (set_is_on true initial))) as H.
  destruct H as (Hq & Ht & _).
  - reflexivity.
  - lia.
  - vm_compute. discriminate.
  - split; [exact Hq | exact Ht].
Defined.

(** With an old target that is not negative, the proviso of C1 holds. *)
Lemma distance_fits (t : Z) (self : Server) :
  Int32.in_range t -> 0 < t -> 0 <= get_target_speed self ->
  Int32.in_range (get_target_speed self) ->
  Z.abs (t - get_target_speed self) <= Int32.max_signed.
Proof.
  int32_bounds. lia.
Qed.

(** C1, as stated, fails: the state reached by switching on and then
    calling [set_speed] with the least 32-bit integer has that integer as
    its target; [set_speed 1] there appends no command at all, although
    the distance is 2147483649. *)
Lemma set_speed_steps_counterexample :
  let self := run [OpSetIsOn true; OpSetSpeed Int32.min_signed] initial in
  is_on (_device_state self) = true /\
  get_target_speed self = Int32.min_signed /\
  _message_queue (set_speed 1 self) = _message_queue self /\
  Z.abs (1 - get_target_speed self) = 2147483649 /\
  ~ (exists steps,
        _message_queue (set_speed 1 self) = _message_queue self ++ steps /\
        Z.of_nat (List.length steps) = Z.abs (1 - get_target_speed self)).
Proof.
  cbv zeta.
  assert (E : run [OpSetIsOn true; OpSetSpeed Int32.min_signed] initial
              = mkServer true
                         (mkDeviceState true DEFAULT Int32.min_signed 0)
                         [MESSAGE_ON]) by (vm_compute; reflexivity).
  rewrite E.
  assert (Q : _message_queue
                (set_speed 1 (mkServer true
                                (mkDeviceState true DEFAULT Int32.min_signed 0)
                                [MESSAGE_ON]))
              = [MESSAGE_ON]) by (vm_compute; reflexivity).
  rewrite Q. simpl.
  repeat split.
  intros (steps & Hq & Hlen).
  injection Hq as Hq. subst steps. simpl in Hlen.
  unfold get_target_speed in Hlen. simpl in Hlen. discriminate.
Qed.

(** C4: [set_speed 0] on a device that is on appends exactly one OFF and no
    step command and clears [is_on]; [set_speed t] with [t > 0] on a device
    that is off with target 0 appends ON followed by exactly [t - 1] HIGHER
    commands, and leaves [target_speed = t] and [is_on = true]. *)
Theorem set_speed_power_coupling (t : Z) (self : Server) :
  (is_on (_device_state self) = true ->
   _message_queue (set_speed 0 self) = _message_queue self ++ [MESSAGE_OFF] /\
   is_on (_device_state (set_speed 0 self)) = false) /\
  (is_on (_device_state self) = false ->
   get_target_speed self = 0 ->
   0 < t ->
   Int32.in_range t ->
   _message_queue (set_speed t self)
   = _message_queue self
       ++ MESSAGE_ON :: repeat MESSAGE_HIGHER (Z.to_nat (t - 1)) /\
   get_target_speed (set_speed t self) = t /\
   is_on (_device_state (set_speed t self)) = true).
Proof.
  split.
  - intros Hon. unfold set_speed. rewrite Hon. simpl.
    rewrite set_is_on_queue, set_is_on_is_on, Hon. auto.
  - intros Hoff Htarget Hpos Ht. unfold set_speed. rewrite Hoff. simpl.
    destruct (Z.gtb_spec t 0); [|lia].
    unfold get_target_speed.
    rewrite set_speed_steps_state, set_speed_steps_queue, set_is_on_is_on.
    simpl. split; [|split; reflexivity].
    rewrite set_is_on_queue, Hoff. simpl.
    assert (Hone : get_target_speed (set_is_on true self) = 1).
    { unfold set_is_on, get_target_speed. rewrite Hoff. reflexivity. }
    rewrite Hone, <- app_assoc. simpl. do 2 f_equal.
    int32_bounds.
    destruct (Z.ltb_spec 1 t).
    + unfold Int32.sub. rewrite wrap_small; [reflexivity|].
      int32_bounds. lia.
    + destruct (Z.gtb_spec 1 t); [lia|].
      replace (t - 1) with 0 by lia. reflexivity.
Qed.

Lemma set_speed_power_coupling_witness :
  _message_queue (set_speed 0 (set_is_on true initial))
  = [MESSAGE_ON; MESSAGE_OFF] /\
  _message_queue (set_speed 4 initial)
  = [MESSAGE_ON; MESSAGE_HIGHER; MESSAGE_HIGHER; MESSAGE_HIGHER] /\
  get_target_speed (set_speed 4 initial) = 4 /\
  is_on (_device_state (set_speed 4 initial)) = true.
Proof.
  split.
  - apply (proj1 (set_speed_power_coupling 4 (set_is_on true initial))).
    reflexivity.
  - apply (proj2 (set_speed_power_coupling 4 initial)).
    + reflexivity.
    + reflexivity.
    + lia.
    + vm_compute. split; discriminate.
Defined.

(** ** What each operation leaves alone *)

Lemma store_actual_speed_twice v w self :
  store_actual_speed v (store_actual_speed w self) = store_actual_speed v self.
Proof. reflexivity. Qed.

Lemma store_actual_speed_same self :
  store_actual_speed (get_actual_speed self) self = self.
Proof. destruct self as [r [o m t a] q]. reflexivity. Qed.

(** [handle_feedback] stores to [actual_speed] and to nothing else. *)
Lemma handle_feedback_frame feedback self :
  handle_feedback feedback self
  = store_actual_speed (get_actual_speed (handle_feedback feedback self)) self.
Proof.
  unfold handle_feedback.
  case_strings; try reflexivity.
  symmetry. apply store_actual_speed_same.
Qed.

Lemma rx_iteration_frame reads self :
  snd (fst (rx_iteration reads self))
  = store_actual_speed
      (get_actual_speed (snd (fst (rx_iteration reads self)))) self.
Proof.
  unfold rx_iteration.
  destruct (read_line reads []) as [[|c buffer] rest]; simpl.
  - symmetry. apply store_actual_speed_same.
  - apply handle_feedback_frame.
Qed.

Lemma rx_loop_frame fuel reads self :
  fst (rx_loop fuel reads self)
  = store_actual_speed (get_actual_speed (fst (rx_loop fuel reads self))) self.
Proof.
  revert reads self. induction fuel as [|fuel IH]; intros reads self; simpl.
  - symmetry. apply store_actual_speed_same.
  - destruct (negb (_is_running self));
      [symmetry; apply store_actual_speed_same|].
    destruct reads as [|r reads];
      [symmetry; apply store_actual_speed_same|].
    pose proof (rx_iteration_frame (r :: reads) self) as Hit.
    destruct (rx_iteration (r :: reads) self) as [[rest self'] log].
    simpl in Hit.
    pose proof (IH rest self') as Hloop.
    destruct (rx_loop fuel rest self') as [self'' log']. simpl in *.
    rewrite Hloop at 1. rewrite Hit. apply store_actual_speed_twice.
Qed.

Lemma receive_frame reads self :
  fst (receive reads self)
  = store_actual_speed (get_actual_speed (fst (receive reads self))) self.
Proof. apply rx_loop_frame. Qed.

Lemma receive_target reads self :
  get_target_speed (fst (receive reads self)) = get_target_speed self.
Proof. rewrite receive_frame. reflexivity. Qed.

Lemma set_is_on_actual on self :
  get_actual_speed (set_is_on on self) = get_actual_speed self.
Proof.
  unfold set_is_on.
  destruct (Bool.eqb (is_on (_device_state self)) on); reflexivity.
Qed.

Lemma set_speed_steps_actual speed self :
  get_actual_speed (set_speed_steps speed self) = get_actual_speed self.
Proof.
  unfold get_actual_speed. now rewrite set_speed_steps_state.
Qed.

Lemma set_speed_actual speed self :
  get_actual_speed (set_speed speed self) = get_actual_speed self.
Proof.
  unfold set_speed.
  destruct (negb (is_on (_device_state self)) && (speed >? 0));
    [|destruct (is_on (_device_state self) && (speed =? 0))];
    rewrite ?set_speed_steps_actual, ?set_is_on_actual; reflexivity.
Qed.

Lemma set_mode_actual m self :
  get_actual_speed (set_mode m self) = get_actual_speed self.
Proof.
  unfold set_mode. destruct (negb (is_on (_device_state self))); reflexivity.
Qed.

Lemma command_step_actual command self :
  get_actual_speed (command_step command self) = get_actual_speed self.
Proof.
  unfold command_step, command_exit, command_power, command_mode,
    command_lower, command_higher.
  case_strings; try reflexivity.
  - destruct (is_on (_device_state self)); reflexivity.
  - apply set_is_on_actual.
  - destruct (negb (is_on (_device_state self)));
      [reflexivity | apply set_mode_actual].
  - destruct (negb (is_on (_device_state self)) || (get_target_speed self =? 0));
      [reflexivity | apply set_speed_actual].
  - destruct (negb (is_on (_device_state self))
              || (get_target_speed self =? MAX_SPEED));
      [reflexivity | apply set_speed_actual].
Qed.

(** [set_speed] stores its argument as it is. *)
Lemma set_speed_target speed self :
  get_target_speed (set_speed speed self) = speed.
Proof.
  unfold set_speed.
  destruct (negb (is_on (_device_state self)) && (speed >? 0)) eqn:E1.
  - unfold get_target_speed. now rewrite set_speed_steps_state.
  - destruct (is_on (_device_state self) && (speed =? 0)) eqn:E2.
    + apply andb_prop in E2. destruct E2 as [Hon Hz].
      apply Z.eqb_eq in Hz. subst speed.
      unfold set_is_on. rewrite Hon. reflexivity.
    + unfold get_target_speed. now rewrite set_speed_steps_state.
Qed.

Lemma set_is_on_target_range on self :
  target_in_range self -> target_in_range (set_is_on on self).
Proof.
  unfold target_in_range, set_is_on, MIN_SPEED, MAX_SPEED.
  destruct (Bool.eqb (is_on (_device_state self)) on); auto.
  destruct on; unfold get_target_speed; simpl; lia.
Qed.

Lemma command_step_target_range command self :
  target_in_range self -> target_in_range (command_step command self).
Proof.
  intros H.
  unfold command_step, command_exit, command_power, command_mode,
    command_lower, command_higher.
  case_strings; auto.
  - destruct (is_on (_device_state self)); exact H.
  - now apply set_is_on_target_range.
  - unfold set_mode. destruct (negb (is_on (_device_state self))); exact H.
  - destruct (negb (is_on (_device_state self))) eqn:Eon; simpl; auto.
    destruct (Z.eqb_spec (get_target_speed self) 0); auto.
    unfold target_in_range in *. rewrite set_speed_target.
    unfold MIN_SPEED, MAX_SPEED in *. unfold Int32.sub.
    rewrite wrap_small; [lia|].
    int32_bounds. lia.
  - destruct (negb (is_on (_device_state self))) eqn:Eon; simpl; auto.
    destruct (Z.eqb_spec (get_target_speed self) MAX_SPEED); auto.
    unfold target_in_range in *. rewrite set_speed_target.
    unfold MIN_SPEED, MAX_SPEED in *. unfold Int32.add.
    rewrite wrap_small; [lia|].
    int32_bounds. lia.
Qed.

Lemma apply_target_range op self :
  speed_argument_in_range op ->
  target_in_range self -> target_in_range (apply op self).
Proof.
  intros Harg H. destruct op as [on|speed|m|reads|command]; simpl in *.
  - now apply set_is_on_target_range.
  - unfold target_in_range. now rewrite set_speed_target.
  - unfold set_mode. destruct (negb (is_on (_device_state self))); exact H.
  - unfold target_in_range. now rewrite receive_target.
  - now apply command_step_target_range.
Qed.

Lemma run_target_range ops self :
  Forall speed_argument_in_range ops ->
  target_in_range self -> target_in_range (run ops self).
Proof.
  intros Hall. revert self.
  induction Hall as [|op ops Hop Hall IH]; intros self H; simpl; auto.
  apply IH. now apply apply_target_range.
Qed.

(** C2, as amended: [set_speed] does not clamp, it stores its argument as
    the new target.  Starting from the initial state, [target_speed] stays
    within [0,32] along every sequence of operations whose [set_speed]
    arguments lie within [0,32].  [actual_speed] is written by the receive
    loop alone, which in turn never writes [target_speed]; no bound is
    placed on it. *)
Theorem speeds_without_clamping :
  (forall speed self, get_target_speed (set_speed speed self) = speed) /\
  (forall ops,
      Forall speed_argument_in_range ops ->
      target_in_range (run ops initial)) /\
  (forall op self,
      (forall reads, op <> OpReceive reads) ->
      get_actual_speed (apply op self) = get_actual_speed self) /\
  (forall reads self,
      get_target_speed (apply (OpReceive reads) self) = get_target_speed self).
Proof.
  split; [exact set_speed_target|].
  split.
  { intros ops Hall. apply run_target_range; auto.
    vm_compute. split; discriminate. }
  split.
  - intros op self Hop. destruct op as [on|speed|m|reads|command]; simpl.
    + apply set_is_on_actual.
    + apply set_speed_actual.
    + apply set_mode_actual.
    + now destruct (Hop reads).
    + apply command_step_actual.
  - intros reads self. simpl. apply receive_target.
Qed.

Lemma speeds_without_clamping_witness :
  target_in_range
    (run [OpSetSpeed 32; OpCommand "higher"; OpReceive (bytes "speed_up");
          OpSetSpeed 0] initial) /\
  get_actual_speed (apply (OpSetSpeed 7) initial) = get_actual_speed initial.
Proof.
  split.
  - apply (proj1 (proj2 speeds_without_clamping)).
    repeat constructor; vm_compute; discriminate.
  - apply (proj1 (proj2 (proj2 speeds_without_clamping))).
    intros reads. discriminate.
Defined.

(** C2, as stated, fails: from the initial state [set_speed 33] leaves the
    target at 33, and the feedback line [speed_down] leaves the actual
    speed at -1. *)
Lemma speeds_in_range_counterexample :
  get_target_speed (run [OpSetSpeed 33] initial) = 33 /\
  ~ speeds_in_range (run [OpSetSpeed 33] initial) /\
  get_actual_speed (run [OpReceive (bytes "speed_down" ++ [Some line_feed])]
                        initial) = -1 /\
  ~ speeds_in_range
      (run [OpReceive (bytes "speed_down" ++ [Some line_feed])] initial).
Proof.
  unfold speeds_in_range, MIN_SPEED, MAX_SPEED.
  repeat split; try (vm_compute; reflexivity).
  - vm_compute. intros [[_ H] _]. apply H. reflexivity.
  - vm_compute. intros [_ [H _]]. apply H. reflexivity.
Qed.

(** ** The receive loop *)

Lemma read_line_chunk (chunk : list ascii) (stop : Read) rest buffer :
  ~ In line_feed chunk ->
  stop = None \/ stop = Some line_feed ->
  read_line (map Some chunk ++ stop :: rest) buffer = (buffer ++ chunk, rest).
Proof.
  revert buffer. induction chunk as [|c chunk IH]; intros buffer Hno Hstop.
  - simpl. rewrite app_nil_r.
    destruct Hstop as [-> | ->]; [reflexivity|].
    now rewrite Ascii.eqb_refl.
  - simpl. destruct (Ascii.eqb_spec c line_feed) as [->|Hne].
    + exfalso. apply Hno. now left.
    + rewrite IH; auto.
      * now rewrite <- app_assoc.
      * intros Hin. apply Hno. now right.
Qed.

Lemma c_str_terminated (chunk : list ascii) :
  ~ In zero chunk -> c_str (chunk ++ [zero]) = string_of_list_ascii chunk.
Proof.
  induction chunk as [|c chunk IH]; intros Hno; simpl.
  - reflexivity.
  - destruct (Ascii.eqb_spec c zero) as [->|Hne].
    + exfalso. apply Hno. now left.
    + rewrite IH; auto. intros Hin. apply Hno. now right.
Qed.

Lemma ends_with_last (s : string) (c : ascii) :
  ends_with (s ++ String c EmptyString) c = true.
Proof.
  induction s as [|a s IH]; simpl.
  - apply Ascii.eqb_refl.
  - destruct s; simpl in *; exact IH.
Qed.

Lemma length_last (s : string) (c : ascii) :
  (String.length (s ++ String c EmptyString) - 1)%nat = String.length s.
Proof.
  induction s as [|a s IH]; simpl; auto.
  destruct s; simpl in *; lia.
Qed.

Lemma substring_prefix (s t : string) :
  substring 0 (String.length s) (s ++ t) = s.
Proof.
  induction s as [|a s IH]; simpl.
  - destruct t; reflexivity.
  - now rewrite IH.
Qed.

Lemma list_ascii_of_string_app (s t : string) :
  list_ascii_of_string (s ++ t)
  = (list_ascii_of_string s ++ list_ascii_of_string t)%list.
Proof. induction s as [|a s IH]; simpl; congruence. Qed.

Lemma decode_line_carriage_return (text : string) :
  ~ In zero (list_ascii_of_string text) ->
  decode_line (list_ascii_of_string (text ++ String carriage_return EmptyString))
  = text.
Proof.
  intros Hno. unfold decode_line.
  rewrite c_str_terminated.
  - rewrite string_of_list_ascii_of_string. unfold strip_carriage_return.
    rewrite ends_with_last, length_last. apply substring_prefix.
  - rewrite list_ascii_of_string_app. intros Hin.
    apply in_app_or in Hin. destruct Hin as [Hin|Hin]; [now apply Hno|].
    simpl in Hin. destruct Hin as [Hin|[]]. discriminate.
Qed.

Lemma decode_line_plain (text : string) :
  ~ In zero (list_ascii_of_string text) ->
  ends_with text carriage_return = false ->
  decode_line (list_ascii_of_string text) = text.
Proof.
  intros Hno Hend. unfold decode_line.
  rewrite c_str_terminated by assumption.
  rewrite string_of_list_ascii_of_string. unfold strip_carriage_return.
  now rewrite Hend.
Qed.

Lemma c_str_cut_at_nul (chunk : list ascii) :
  c_str (chunk ++ [zero]) = string_of_list_ascii (cut_at_nul chunk).
Proof.
  induction chunk as [|c chunk IH]; simpl.
  - reflexivity.
  - destruct (Ascii.eqb c zero); [reflexivity | now rewrite IH].
Qed.

Lemma strip_carriage_return_last (text : string) :
  strip_carriage_return (text ++ String carriage_return EmptyString) = text.
Proof.
  unfold strip_carriage_return.
  rewrite ends_with_last, length_last. apply substring_prefix.
Qed.

(** C3, as amended: a pass of the receive loop takes the bytes read so far
    as a chunk when a line feed is read or when a read yields no byte.  It
    does nothing for an empty chunk.  Otherwise the line it classifies is
    the chunk cut at its first NUL byte, if it has one, with one trailing
    carriage return removed.  A classified line equal to [power_on] sets
    [actual_speed] to 1, [power_off] sets it to 0, [speed_up] adds 1 and
    [speed_down] subtracts 1 (in 32-bit arithmetic); any other classified
    line leaves the whole server unchanged. *)
Theorem feedback_line_processing :
  (forall self,
      handle_feedback "power_on" self = store_actual_speed 1 self /\
      handle_feedback "power_off" self = store_actual_speed 0 self /\
      handle_feedback "speed_up" self
      = store_actual_speed (Int32.add (get_actual_speed self) 1) self /\
      handle_feedback "speed_down" self
      = store_actual_speed (Int32.sub (get_actual_speed self) 1) self) /\
  (forall a, Int32.in_range a ->
             (a < Int32.max_signed -> Int32.add a 1 = a + 1) /\
             (Int32.min_signed < a -> Int32.sub a 1 = a - 1)) /\
  (forall line self,
      line <> "power_on"%string -> line <> "power_off"%string ->
      line <> "speed_up"%string -> line <> "speed_down"%string ->
      handle_feedback line self = self) /\
  (forall (chunk : list ascii) (stop : Read) rest self,
      ~ In line_feed chunk ->
      stop = None \/ stop = Some line_feed ->
      rx_iteration (map Some chunk ++ stop :: rest) self
      = match chunk with
        | [] => (rest, self, [])
        | _ :: _ => (rest, handle_feedback (decode_line chunk) self,
                     [decode_line chunk])
        end) /\
  (forall chunk,
      decode_line chunk
      = strip_carriage_return (string_of_list_ascii (cut_at_nul chunk))) /\
  (forall text,
      strip_carriage_return (text ++ String carriage_return EmptyString)
      = text /\
      (ends_with text carriage_return = false ->
       strip_carriage_return text = text)).
Proof.
  split; [intros self; repeat split|].
  split.
  { intros a Ha. unfold Int32.add, Int32.sub.
    int32_bounds.
    split; intros H; apply wrap_small;
      int32_bounds; lia. }
  split.
  { intros line self H1 H2 H3 H4. unfold handle_feedback.
    apply String.eqb_neq in H1, H2, H3, H4.
    now rewrite H1, H2, H3, H4. }
  split.
  { intros chunk stop rest self Hno Hstop. unfold rx_iteration.
    rewrite read_line_chunk by assumption. simpl.
    destruct chunk; reflexivity. }
  split.
  - intros chunk. unfold decode_line. now rewrite c_str_cut_at_nul.
  - intros text. split.
    + apply strip_carriage_return_last.
    + intros Hend. unfold strip_carriage_return. now rewrite Hend.
Qed.

Lemma feedback_line_processing_witness :
  handle_feedback "garbage" initial = initial /\
  rx_iteration (bytes "speed_up" ++ [Some carriage_return; Some line_feed])
               initial
  = ([], store_actual_speed 1 initial, ["speed_up"%string]) /\
  rx_iteration [Some line_feed] initial = ([], initial, []) /\
  Int32.add 0 1 = 1 /\
  strip_carriage_return "hello" = "hello"%string.
Proof.
  destruct feedback_line_processing
    as (_ & Harith & Hother & Hline & Hdecode & Hstrip).
  split; [|split; [|split; [|split]]].
  - apply Hother; discriminate.
  - change (bytes "speed_up" ++ [Some carriage_return; Some line_feed])
      with (map Some (list_ascii_of_string
                        ("speed_up" ++ String carriage_return EmptyString))
              ++ Some line_feed :: []).
    rewrite Hline.
    + simpl list_ascii_of_string. rewrite Hdecode. reflexivity.
    + vm_compute. intuition discriminate.
    + now right.
  - apply (Hline [] (Some line_feed) [] initial); [intros [] | now right].
  - apply (proj1 (Harith 0 ltac:(vm_compute; split; discriminate))).
    vm_compute. reflexivity.
  - apply (proj2 (Hstrip "hello"%string)). reflexivity.
Defined.

(** C3, as stated, fails twice.  The bytes of [speed_up] followed by a
    read that yields nothing hold no line terminator, yet the receive loop
    classifies them and raises [actual_speed].  And the line made of
    [power_on], a NUL byte and [xyz] is none of the four tokens, yet the
    receive loop sets [actual_speed] to 1 on it. *)
Lemma received_line_counterexample :
  (let reads := bytes "speed_up" ++ [None] in
   ~ In (Some line_feed) reads /\
   get_actual_speed initial = 0 /\
   get_actual_speed (fst (receive reads initial)) = 1 /\
   snd (receive reads initial) = ["speed_up"%string]) /\
  (let line :=
     (list_ascii_of_string "power_on" ++ zero :: list_ascii_of_string "xyz")%list
   in
   line <> list_ascii_of_string "power_on" /\
   line <> list_ascii_of_string "power_off" /\
   line <> list_ascii_of_string "speed_up" /\
   line <> list_ascii_of_string "speed_down" /\
   ~ In line_feed line /\
   get_actual_speed (fst (receive (map Some line ++ [Some line_feed]) initial))
   = 1).
Proof.
  cbv zeta. split.
  - split; [|split; [|split]]; try (vm_compute; reflexivity).
    vm_compute. intuition discriminate.
  - repeat split; try discriminate; try (vm_compute; reflexivity).
    vm_compute. intuition discriminate.
Qed.

(** A chunk is cut at its first NUL byte before it is classified. *)
Example receive_nul_cut :
  receive (bytes "power_on" ++ [Some zero] ++ bytes "xyz" ++ [Some line_feed])
          initial
  = (store_actual_speed 1 initial, ["power_on"%string]).
Proof. vm_compute. reflexivity. Qed.

(** The reads of a run are enough fuel for [rx_loop]. *)
Lemma read_line_shorter reads buffer :
  (List.length (snd (read_line reads buffer)) <= List.length reads)%nat.
Proof.
  revert buffer. induction reads as [|[c|] reads IH]; intros buffer; simpl.
  - lia.
  - destruct (Ascii.eqb c line_feed); simpl; [lia|].
    specialize (IH (buffer ++ [c])). lia.
  - lia.
Qed.

Lemma rx_iteration_shorter r reads self :
  (List.length (fst (fst (rx_iteration (r :: reads) self)))
   < List.length (r :: reads))%nat.
Proof.
  unfold rx_iteration. simpl read_line.
  destruct r as [c|].
  - destruct (Ascii.eqb c line_feed).
    + simpl. lia.
    + pose proof (read_line_shorter reads [c]) as H.
      destruct (read_line reads [c]) as [[|b buffer] rest];
        simpl in *; lia.
  - simpl. lia.
Qed.

Lemma rx_loop_fuel_irrelevant fuel1 fuel2 reads self :
  (List.length reads <= fuel1)%nat ->
  (List.length reads <= fuel2)%nat ->
  rx_loop fuel1 reads self = rx_loop fuel2 reads self.
Proof.
  revert fuel2 reads self.
  induction fuel1 as [|fuel1 IH]; intros fuel2 reads self H1 H2.
  - destruct reads; [|simpl in H1; lia].
    destruct fuel2; simpl; [reflexivity|].
    destruct (negb (_is_running self)); reflexivity.
  - destruct fuel2 as [|fuel2].
    + destruct reads; [|simpl in H2; lia].
      simpl. destruct (negb (_is_running self)); reflexivity.
    + simpl. destruct (negb (_is_running self)); [reflexivity|].
      destruct reads as [|r reads]; [reflexivity|].
      pose proof (rx_iteration_shorter r reads self) as Hshort.
      destruct (rx_iteration (r :: reads) self) as [[rest self'] log].
      simpl in Hshort, H1, H2.
      rewrite (IH fuel2 rest self') by lia. reflexivity.
Qed.

Lemma rx_loop_enough_fuel fuel reads self :
  (List.length reads <= fuel)%nat ->
  rx_loop fuel reads self = receive reads self.
Proof.
  intros H. unfold receive. apply rx_loop_fuel_irrelevant; auto.
Qed.

(** ** The opcodes on the queue *)

Lemma Forall_repeat {A} (P : A -> Prop) (x : A) (n : nat) :
  P x -> Forall P (repeat x n).
Proof. intros H. induction n; simpl; constructor; auto. Qed.

Lemma set_is_on_appends on self :
  exists added,
    _message_queue (set_is_on on self) = _message_queue self ++ added /\
    Forall (fun c => In c sent_opcodes) added.
Proof.
  rewrite set_is_on_queue.
  eexists. split; [reflexivity|].
  destruct (Bool.eqb (is_on (_device_state self)) on); [constructor|].
  constructor; [|constructor]. destruct on; simpl; tauto.
Qed.

Lemma set_speed_steps_appends speed self :
  exists added,
    _message_queue (set_speed_steps speed self) = _message_queue self ++ added /\
    Forall (fun c => In c sent_opcodes) added.
Proof.
  rewrite set_speed_steps_queue.
  eexists. split; [reflexivity|].
  destruct (get_target_speed self <? speed);
    [|destruct (get_target_speed self >? speed)];
    [apply Forall_repeat | apply Forall_repeat | constructor]; simpl; tauto.
Qed.

Lemma set_speed_appends speed self :
  exists added,
    _message_queue (set_speed speed self) = _message_queue self ++ added /\
    Forall (fun c => In c sent_opcodes) added.
Proof.
  unfold set_speed.
  destruct (negb (is_on (_device_state self)) && (speed >? 0)).
  - destruct (set_is_on_appends true self) as (a1 & E1 & F1).
    destruct (set_speed_steps_appends speed (set_is_on true self))
      as (a2 & E2 & F2).
    exists (a1 ++ a2). rewrite E2, E1, app_assoc. split; [reflexivity|].
    apply Forall_app; auto.
  - destruct (is_on (_device_state self) && (speed =? 0)).
    + apply set_is_on_appends.
    + apply set_speed_steps_appends.
Qed.

Lemma appends_nothing self self' :
  _message_queue self' = _message_queue self ->
  exists added,
    _message_queue self' = _message_queue self ++ added /\
    Forall (fun c => In c sent_opcodes) added.
Proof.
  intros H. exists []. rewrite app_nil_r. split; [exact H | constructor].
Qed.

Lemma set_mode_queue m self :
  _message_queue (set_mode m self) = _message_queue self.
Proof.
  unfold set_mode. destruct (negb (is_on (_device_state self))); reflexivity.
Qed.

Lemma command_step_appends command self :
  exists added,
    _message_queue (command_step command self) = _message_queue self ++ added /\
    Forall (fun c => In c sent_opcodes) added.
Proof.
  unfold command_step, command_exit, command_power, command_mode,
    command_lower, command_higher.
  case_strings; try (apply appends_nothing; reflexivity).
  - destruct (is_on (_device_state self));
      [|apply appends_nothing; reflexivity].
    exists [MESSAGE_OFF]. split; [reflexivity|].
    constructor; [simpl; tauto | constructor].
  - apply set_is_on_appends.
  - destruct (negb (is_on (_device_state self)));
      [apply appends_nothing; reflexivity|].
    apply appends_nothing, set_mode_queue.
  - destruct (negb (is_on (_device_state self)) || (get_target_speed self =? 0));
      [apply appends_nothing; reflexivity | apply set_speed_appends].
  - destruct (negb (is_on (_device_state self))
              || (get_target_speed self =? MAX_SPEED));
      [apply appends_nothing; reflexivity | apply set_speed_appends].
Qed.

Lemma apply_appends op self :
  exists added,
    _message_queue (apply op self) = _message_queue self ++ added /\
    Forall (fun c => In c sent_opcodes) added.
Proof.
  destruct op as [on|speed|m|reads|command]; simpl.
  - apply set_is_on_appends.
  - apply set_speed_appends.
  - apply appends_nothing, set_mode_queue.
  - apply appends_nothing. rewrite receive_frame. reflexivity.
  - apply command_step_appends.
Qed.

Lemma enqueued_sent op self :
  _message_queue (apply op self) = _message_queue self ++ enqueued op self /\
  Forall (fun c => In c sent_opcodes) (enqueued op self).
Proof.
  unfold enqueued.
  destruct (apply_appends op self) as (added & E & F).
  rewrite E, skipn_app, skipn_all, Nat.sub_diag. simpl. auto.
Qed.

(** C6, as amended: every operation appends to the queue, and every byte
    it appends is one of ON ('i'), OFF ('o'), HIGHER ('h') and LOWER ('l');
    each of these four is appended by some mutation operation.  MODE ('m')
    is declared among the opcodes but no operation appends it: [set_mode]
    appends nothing. *)
Theorem sent_opcode_vocabulary :
  (forall op self,
      _message_queue (apply op self) = _message_queue self ++ enqueued op self) /\
  (forall op self c, In c (enqueued op self) -> In c sent_opcodes) /\
  (forall c, In c sent_opcodes ->
             exists op self,
               is_mutation op = true /\ In c (enqueued op self)) /\
  (forall m self, enqueued (OpSetMode m) self = []) /\
  (forall c, In c sent_opcodes -> In c opcodes) /\
  In MESSAGE_MODE opcodes /\ ~ In MESSAGE_MODE sent_opcodes.
Proof.
  split; [intros op self; apply enqueued_sent|].
  split.
  { intros op self c Hin.
    destruct (enqueued_sent op self) as [_ F].
    rewrite Forall_forall in F. now apply F. }
  split.
  { intros c Hc. simpl in Hc.
    destruct Hc as [<-|[<-|[<-|[<-|[]]]]].
    - exists (OpSetIsOn true), initial. split; [reflexivity|]. now left.
    - exists (OpSetIsOn false), (set_is_on true initial).
      split; [reflexivity|]. now left.
    - exists (OpSetSpeed 2), (set_is_on true initial).
      split; [reflexivity|]. now left.
    - exists (OpSetSpeed 1), (set_speed 2 initial).
      split; [reflexivity|]. now left. }
  split.
  { intros m self. unfold enqueued. simpl.
    rewrite set_mode_queue. apply skipn_all. }
  split.
  { intros c Hc. simpl in *. tauto. }
  split.
  - simpl. tauto.
  - simpl. intros [H|[H|[H|[H|[]]]]]; discriminate.
Qed.

Lemma sent_opcode_vocabulary_witness :
  In MESSAGE_HIGHER sent_opcodes /\
  exists op self, is_mutation op = true /\ In MESSAGE_LOWER (enqueued op self).
Proof.
  split.
  - apply (proj1 (proj2 sent_opcode_vocabulary)
             (OpSetSpeed 2) (set_is_on true initial) MESSAGE_HIGHER).
    vm_compute. now left.
  - apply (proj1 (proj2 (proj2 sent_opcode_vocabulary)) MESSAGE_LOWER).
    simpl. tauto.
Defined.

(** C6, as stated, fails for MODE: it is one of the five opcodes, and no
    operation on any server appends it. *)
Lemma opcode_vocabulary_counterexample :
  In MESSAGE_MODE opcodes /\
  ~ (exists op self, In MESSAGE_MODE (enqueued op self)) /\
  ~ (forall c, In c opcodes ->
               exists op self,
                 is_mutation op = true /\ In c (enqueued op self)).
Proof.
  assert (Hnone : ~ (exists op self, In MESSAGE_MODE (enqueued op self))).
  { intros (op & self & Hin).
    destruct (enqueued_sent op self) as [_ F].
    rewrite Forall_forall in F. apply F in Hin. simpl in Hin.
    destruct Hin as [H|[H|[H|[H|[]]]]]; discriminate. }
  split; [simpl; tauto|]. split; [exact Hnone|].
  intros Hall. apply Hnone.
  destruct (Hall MESSAGE_MODE) as (op & self & _ & Hin); [simpl; tauto|].
  now exists op, self.
Qed.

(** ** [set_mode] *)

Lemma Mode_eq_dec (a b : Mode) : {a = b} + {a <> b}.
Proof. decide equality. apply Nat.eq_dec. Defined.

Lemma set_is_on_mode on self :
  get_mode (set_is_on on self) = get_mode self.
Proof.
  unfold set_is_on.
  destruct (Bool.eqb (is_on (_device_state self)) on); reflexivity.
Qed.

Lemma set_speed_mode speed self :
  get_mode (set_speed speed self) = get_mode self.
Proof.
  unfold set_speed, get_mode.
  destruct (negb (is_on (_device_state self)) && (speed >? 0));
    [|destruct (is_on (_device_state self) && (speed =? 0))];
    rewrite ?set_speed_steps_state; simpl; try apply set_is_on_mode;
    reflexivity.
Qed.

Lemma receive_mode reads self :
  get_mode (fst (receive reads self)) = get_mode self.
Proof. rewrite receive_frame. reflexivity. Qed.

Lemma set_mode_off m self :
  is_on (_device_state self) = false -> set_mode m self = self.
Proof. intros H. unfold set_mode. now rewrite H. Qed.

Lemma set_mode_on m self :
  is_on (_device_state self) = true -> set_mode m self = store_mode m self.
Proof. intros H. unfold set_mode. now rewrite H. Qed.

(** An operation that changes the mode reaches a call of [set_mode], and
    finds the device on. *)
Lemma apply_mode_changed op self :
  get_mode (apply op self) <> get_mode self ->
  invokes_set_mode op = true /\ is_on (_device_state self) = true.
Proof.
  destruct op as [on|speed|m|reads|command]; simpl; intros Hchanged.
  - now rewrite set_is_on_mode in Hchanged.
  - now rewrite set_speed_mode in Hchanged.
  - split; [reflexivity|].
    destruct (is_on (_device_state self)) eqn:Hon; [reflexivity|].
    now rewrite set_mode_off in Hchanged.
  - now rewrite receive_mode in Hchanged.
  - revert Hchanged.
    unfold command_step, command_exit, command_power, command_mode,
      command_lower, command_higher.
    destruct (String.eqb command "");
      [intros H; now destruct H|].
    destruct (String.eqb command "help");
      [intros H; now destruct H|].
    destruct (String.eqb command "exit").
    { destruct (is_on (_device_state self)); intros H; now destruct H. }
    destruct (String.eqb command "power").
    { rewrite set_is_on_mode. intros H. now destruct H. }
    destruct (String.eqb command "mode").
    { destruct (is_on (_device_state self)); simpl; intros H.
      - split; reflexivity.
      - now destruct H. }
    destruct (String.eqb command "lower").
    { destruct (negb (is_on (_device_state self))
                || (get_target_speed self =? 0));
        rewrite ?set_speed_mode; intros H; now destruct H. }
    destruct (String.eqb command "higher").
    { destruct (negb (is_on (_device_state self))
                || (get_target_speed self =? MAX_SPEED));
        rewrite ?set_speed_mode; intros H; now destruct H. }
    intros H. now destruct H.
Qed.

Lemma run_app ops1 ops2 self :
  run (ops1 ++ ops2) self = run ops2 (run ops1 self).
Proof. unfold run. apply fold_left_app. Qed.

Lemma run_mode_changed ops self :
  get_mode (run ops self) <> get_mode self ->
  exists before op after,
    ops = before ++ op :: after /\
    invokes_set_mode op = true /\
    is_on (_device_state (run before self)) = true.
Proof.
  induction ops as [|op ops IH] using rev_ind; intros Hchanged.
  - now destruct Hchanged.
  - rewrite run_app in Hchanged. simpl in Hchanged.
    destruct (Mode_eq_dec (get_mode (run ops self)) (get_mode self)) as [E|N].
    + rewrite <- E in Hchanged.
      apply apply_mode_changed in Hchanged. destruct Hchanged as [Hop Hon].
      now exists ops, op, [].
    + destruct (IH N) as (before & op' & after & -> & Hop & Hon).
      exists before, op', (after ++ [op]).
      rewrite <- app_assoc. simpl. auto.
Qed.

(** C7: [set_mode m] changes nothing while the device is off; while it is
    on, it stores [m] in [mode], also when [m] is the mode already held, and
    changes nothing else.  Hence along any sequence of operations from the
    initial state, the mode can differ from its initial value only if some
    operation called [set_mode] at a moment when the device was on. *)
Theorem set_mode_spec :
  (forall m self,
      is_on (_device_state self) = false -> set_mode m self = self) /\
  (forall m self,
      is_on (_device_state self) = true ->
      set_mode m self
      = mkServer (_is_running self)
                 (mkDeviceState true m (target_speed (_device_state self))
                                (actual_speed (_device_state self)))
                 (_message_queue self)) /\
  (forall ops,
      get_mode (run ops initial) <> get_mode initial ->
      exists before op after,
        ops = before ++ op :: after /\
        invokes_set_mode op = true /\
        is_on (_device_state (run before initial)) = true).
Proof.
  split; [exact set_mode_off|].
  split.
  - intros m self Hon. rewrite set_mode_on by assumption.
    unfold store_mode. now rewrite Hon.
  - intros ops. apply run_mode_changed.
Qed.

Lemma set_mode_spec_witness :
  set_mode (OTHER 1) initial = initial /\
  get_mode (set_mode DEFAULT (set_is_on true initial)) = DEFAULT /\
  exists before op after,
    [OpSetMode (OTHER 1); OpSetIsOn true; OpSetMode (OTHER 2)]
    = before ++ op :: after /\
    invokes_set_mode op = true /\
    is_on (_device_state (run before initial)) = true.
Proof.
  destruct set_mode_spec as (Hoff & Hon & Hrun).
  split; [|split].
  - apply Hoff. reflexivity.
  - rewrite Hon; reflexivity.
  - apply Hrun. vm_compute. discriminate.
Defined.

(** ** The gateway client *)

Import Gateway.

Lemma count_app p (t1 t2 : list Event) :
  count p (t1 ++ t2) = (count p t1 + count p t2)%nat.
Proof. unfold count. now rewrite filter_app, length_app. Qed.

Lemma count_cons p (e : Event) (t : list Event) :
  count p (e :: t) = ((if p e then 1 else 0) + count p t)%nat.
Proof. unfold count. simpl. destruct (p e); reflexivity. Qed.

(** [check_status] answers true exactly for HTTP 200, and otherwise writes
    one error entry. *)
Lemma check_status_ok res :
  fst (check_status res) = is_http_200 res.
Proof.
  destruct res as [[code [what|j]]|]; simpl; auto;
    destruct (code =? 200); auto.
  destruct (contains j "error"); auto.
Qed.

Lemma check_status_failed res :
  is_http_200 res = false ->
  check_status res = (false, [EvLog LevelError (error_entry res)]).
Proof.
  destruct res as [[code [what|j]]|]; simpl; intros H; auto;
    rewrite H; auto.
  destruct (contains j "error"); auto.
Qed.

Lemma check_status_logs res :
  Forall (fun e => exists m, e = EvLog LevelError m) (snd (check_status res)).
Proof.
  destruct res as [[code [what|j]]|]; simpl;
    try destruct (code =? 200); simpl;
    try destruct (contains j "error"); simpl;
    repeat constructor; eexists; reflexivity.
Qed.

Lemma count_zero p (trace : list Event) :
  Forall (fun e => p e = false) trace -> count p trace = 0%nat.
Proof.
  unfold count. induction 1 as [|e trace He _ IH]; simpl; auto.
  now rewrite He.
Qed.

Lemma check_status_count p res :
  (forall m, p (EvLog LevelError m) = false) ->
  count p (snd (check_status res)) = 0%nat.
Proof.
  intros Hp. apply count_zero.
  pose proof (check_status_logs res) as Hlogs.
  induction Hlogs as [|e logs [m ->] _ IH]; constructor; auto.
Qed.

Section Decoder.

Variable deserialize : Json -> option Task.

Lemma poll_iteration_starts self cycle server :
  exists tail,
    fst (poll_iteration deserialize self cycle server) = EvPost Fetch :: tail.
Proof.
  unfold poll_iteration.
  destruct (check_status (fetch_response cycle)) as [ok logs].
  destruct ok; simpl; [|eexists; reflexivity].
  destruct (fetch_response cycle) as [[code [what|j]]|];
    try (eexists; reflexivity).
  destruct (negb (is_object j) || negb (contains j "tasks"));
    [eexists; reflexivity|].
  destruct (at_key j "tasks"); try (eexists; reflexivity).
  destruct (dispatch_tasks deserialize items server) as [calls [server'|]];
    eexists; reflexivity.
Qed.

Lemma poll_loop_starts self cycle rest server :
  exists tail,
    fst (poll_loop deserialize self (cycle :: rest) server)
    = EvPost Fetch :: tail.
Proof.
  simpl.
  destruct (poll_iteration_starts self cycle server) as [tail E].
  destruct (poll_iteration deserialize self cycle server) as [trace [s|]];
    simpl in E; subst trace.
  - destruct (poll_loop deserialize self rest s) as [trace' outcome].
    eexists; reflexivity.
  - eexists; reflexivity.
Qed.

(** C8: a pass of the poll loop whose fetch response is absent or not
    HTTP 200 posts the fetch, writes exactly one error entry (built from
    the [error] field when the body holds one, from the decode failure or
    the parser's message otherwise, and the invalid-response entry when
    there is no response), and returns the server as it was: it calls no
    mutation operation, posts no state and does not sleep.  The loop then
    goes on with the remaining passes, the next of which starts with its
    fetch. *)
Theorem failed_fetch_cycle self cycle rest server :
  is_http_200 (fetch_response cycle) = false ->
  let trace :=
    [EvPost Fetch; EvLog LevelError (error_entry (fetch_response cycle))] in
  poll_iteration deserialize self cycle server = (trace, Returned server) /\
  count is_call trace = 0%nat /\
  count is_post_state trace = 0%nat /\
  count is_sleep trace = 0%nat /\
  count is_error_log trace = 1%nat /\
  poll_loop deserialize self (cycle :: rest) server
  = (trace ++ fst (poll_loop deserialize self rest server),
     snd (poll_loop deserialize self rest server)) /\
  (forall next rest',
      rest = next :: rest' ->
      exists tail,
        fst (poll_loop deserialize self (cycle :: rest) server)
        = trace ++ EvPost Fetch :: tail).
Proof.
  intros Hfail trace.
  assert (Hit : poll_iteration deserialize self cycle server
                = (trace, Returned server)).
  { unfold poll_iteration. rewrite check_status_failed by assumption.
    reflexivity. }
  assert (Hloop : poll_loop deserialize self (cycle :: rest) server
                  = (trace ++ fst (poll_loop deserialize self rest server),
                     snd (poll_loop deserialize self rest server))).
  { simpl poll_loop. rewrite Hit.
    destruct (poll_loop deserialize self rest server); reflexivity. }
  repeat split; auto.
  intros next rest' ->. rewrite Hloop.
  destruct (poll_loop_starts self next rest' server) as [tail E].
  exists tail. rewrite <- E. reflexivity.
Qed.

(** The trace of [create_session] up to its return. *)
Lemma create_session_no_online res self :
  count (is_post_online false) (fst (create_session res self)) = 0%nat.
Proof.
  unfold create_session.
  pose proof (check_status_logs res) as Hlogs.
  destruct (check_status res) as [ok logs]. simpl in Hlogs.
  assert (Hcount : count (is_post_online false) logs = 0%nat).
  { unfold count. induction Hlogs as [|e logs [m ->] _ IH]; simpl; auto. }
  assert (Hhead : count (is_post_online false) (EvPost NewSession :: logs)
                  = 0%nat) by exact Hcount.
  destruct ok; simpl negb; cbv iota.
  - destruct res as [[code [what|j]]|]; cbn [fst]; auto.
    destruct (negb (contains j "password")); cbn [fst].
    + now rewrite count_app, Hhead.
    + destruct (at_key j "password"); cbn [fst]; auto.
      now rewrite count_app, Hhead.
  - cbn [fst]. now rewrite count_app, Hhead.
Qed.

Lemma check_status_no_online b res :
  count (is_post_online b) (snd (check_status res)) = 0%nat.
Proof.
  pose proof (check_status_logs res) as Hlogs. unfold count.
  induction Hlogs as [|e logs [m ->] _ IH]; simpl; auto.
Qed.

Lemma dispatch_tasks_no_online b tasks server :
  count (is_post_online b) (fst (dispatch_tasks deserialize tasks server))
  = 0%nat.
Proof.
  revert server. induction tasks as [|task tasks IH]; intros server; simpl.
  - reflexivity.
  - destruct (deserialize task) as [task_dto|]; [|reflexivity].
    specialize (IH (dispatch task_dto server)).
    destruct (dispatch_tasks deserialize tasks (dispatch task_dto server)).
    exact IH.
Qed.

Lemma poll_iteration_no_online b self cycle server :
  count (is_post_online b) (fst (poll_iteration deserialize self cycle server))
  = 0%nat.
Proof.
  unfold poll_iteration.
  pose proof (check_status_no_online b (fetch_response cycle)) as Hlogs.
  destruct (check_status (fetch_response cycle)) as [ok logs].
  simpl in Hlogs.
  assert (Hhead : count (is_post_online b) (EvPost Fetch :: logs) = 0%nat)
    by exact Hlogs.
  destruct ok; simpl negb; cbv iota; [|exact Hhead].
  destruct (fetch_response cycle) as [[code [what|j]]|]; cbn [fst]; auto.
  destruct (negb (is_object j) || negb (contains j "tasks")).
  { cbn [fst]. now rewrite count_app, Hhead. }
  destruct (at_key j "tasks");
    try (cbn [fst]; now rewrite count_app, Hhead).
  pose proof (dispatch_tasks_no_online b items server) as Hd.
  destruct (dispatch_tasks deserialize items server) as [calls [server'|]];
    simpl in Hd; cbn [fst]; [|now rewrite count_app, Hhead, Hd].
  rewrite !count_app, Hhead, Hd. unfold broadcast_state.
  change (count (is_post_online b)
            (EvPost (SetState (snapshot server'))
               :: snd (check_status (setstate_response cycle))))
    with (count (is_post_online b)
            (snd (check_status (setstate_response cycle)))).
  now rewrite check_status_no_online.
Qed.

Lemma poll_loop_no_online b self cycles server :
  count (is_post_online b) (fst (poll_loop deserialize self cycles server))
  = 0%nat.
Proof.
  revert server. induction cycles as [|cycle cycles IH]; intros server.
  - reflexivity.
  - simpl.
    pose proof (poll_iteration_no_online b self cycle server) as Hit.
    destruct (poll_iteration deserialize self cycle server) as [trace [s|]];
      simpl in Hit; [|exact Hit].
    specialize (IH s).
    destruct (poll_loop deserialize self cycles s) as [trace' outcome].
    simpl in *. now rewrite count_app, Hit, IH.
Qed.

(** X18: a run of [update_loop] that returns has announced the client
    offline once if the session was created, and not at all if it was
    not. *)
Lemma update_loop_offline_count env self server trace result :
  update_loop deserialize env self server = (trace, Returned result) ->
  count (is_post_online false) trace
  = if session_created (session_response env) self then 1%nat else 0%nat.
Proof.
  unfold update_loop, session_created, broadcast_is_online.
  pose proof (create_session_no_online (session_response env) self) as Hs.
  destruct (create_session (session_response env) self)
    as [strace [[[|] self']|]]; cbn [fst snd] in Hs |- *.
  - pose proof (poll_loop_no_online false self' (cycles env) server) as Hp.
    destruct (poll_loop deserialize self' (cycles env) server)
      as [polls [server'|]]; cbn [fst] in Hp; [|discriminate].
    intros E. injection E as <- _.
    repeat (rewrite count_app || rewrite count_cons).
    rewrite Hs, Hp, !check_status_no_online. reflexivity.
  - intros E. injection E as <- _.
    repeat (rewrite count_app || rewrite count_cons).
    rewrite Hs, !check_status_no_online. reflexivity.
  - discriminate.
Qed.

(** When the response to /newsession is absent or not HTTP 200,
    [update_loop] announces the client online, posts the session request,
    writes the error entry and the warning, and returns: no pass of the poll
    loop is made and the client is not announced offline. *)
Lemma update_loop_session_failure env self server :
  is_http_200 (session_response env) = false ->
  let trace :=
    [EvLog LevelInfo StartingClient; EvLog LevelInfo ConnectingTo]
      ++ broadcast_is_online true (online_response env)
      ++ [EvPost NewSession;
          EvLog LevelError (error_entry (session_response env));
          EvLog LevelWarn InvalidSessionResponse] in
  update_loop deserialize env self server = (trace, Returned (self, server)) /\
  count (is_post_online true) trace = 1%nat /\
  count (is_post_online false) trace = 0%nat /\
  ~ In (EvPost Fetch) trace.
Proof.
  intros Hfail trace.
  assert (Hrun : update_loop deserialize env self server
                 = (trace, Returned (self, server))).
  { unfold update_loop, create_session.
    rewrite check_status_failed by assumption. reflexivity. }
  split; [exact Hrun|].
  assert (Hlogs := check_status_logs (online_response env)).
  subst trace. unfold broadcast_is_online.
  repeat (rewrite count_app || rewrite count_cons).
  rewrite !check_status_no_online.
  repeat split.
  intros Hin. simpl in Hin.
  destruct Hin as [H|[H|[H|Hin]]]; try discriminate.
  apply in_app_or in Hin. destruct Hin as [Hin|Hin].
  - rewrite Forall_forall in Hlogs. apply Hlogs in Hin.
    destruct Hin as [m Hm]. discriminate.
  - simpl in Hin. destruct Hin as [H|[H|[H|[]]]]; discriminate.
Qed.

(** [create_session] posts the session request and writes log entries,
    nothing else. *)
Lemma create_session_count p res self :
  p (EvPost NewSession) = false ->
  (forall level message, p (EvLog level message) = false) ->
  count p (fst (create_session res self)) = 0%nat.
Proof.
  intros Hpost Hlog. unfold create_session.
  assert (Hlogs : count p (snd (check_status res)) = 0%nat).
  { apply count_zero.
    pose proof (check_status_logs res) as H.
    induction H as [|e logs [m ->] _ IH]; constructor; auto. }
  destruct (check_status res) as [ok logs]. cbn [snd] in Hlogs.
  assert (Hhead : count p (EvPost NewSession :: logs) = 0%nat).
  { now rewrite count_cons, Hpost, Hlogs. }
  assert (Hmore : forall level message,
             count p ((EvPost NewSession :: logs) ++ [EvLog level message])
             = 0%nat).
  { intros level message.
    now rewrite count_app, Hhead, count_cons, Hlog. }
  destruct ok; cbn [negb]; cbv zeta.
  - destruct res as [[code [what|j]]|]; cbn [fst]; auto.
    destruct (negb (contains j "password")); cbn [fst]; auto.
    destruct (at_key j "password"); cbn [fst]; auto.
  - cbn [fst]. apply Hmore.
Qed.

Lemma update_loop_begins env self server :
  exists tail,
    fst (update_loop deserialize env self server)
    = [EvLog LevelInfo StartingClient; EvLog LevelInfo ConnectingTo]
        ++ broadcast_is_online true (online_response env)
        ++ EvPost NewSession :: tail.
Proof.
  unfold update_loop, create_session.
  destruct (check_status (session_response env)) as [ok logs].
  destruct ok; cbn [negb].
  - destruct (session_response env) as [[code [what|j]]|];
      try (eexists; cbn [fst]; reflexivity).
    destruct (negb (contains j "password")).
    + eexists. cbn [fst]. rewrite <- app_comm_cons. reflexivity.
    + destruct (at_key j "password");
        try (eexists; cbn [fst]; reflexivity).
      destruct (poll_loop deserialize _ (cycles env) server)
        as [polls [server'|]];
        eexists; cbn [fst]; rewrite <- !app_comm_cons; reflexivity.
  - eexists. cbn [fst]. rewrite <- app_comm_cons. reflexivity.
Qed.

(** C9, as amended: [update_loop] first announces the client online and
    then requests a session.  If the session is not created, no pass of the
    poll loop is made (no fetch is posted, no mutation operation is called)
    and the run ends without announcing the client offline.  In every run
    that returns after the session was created, the client is announced
    offline exactly once, and that is the last request of the run. *)
Theorem update_loop_lifecycle env self server :
  let run := update_loop deserialize env self server in
  (exists tail,
      fst run
      = [EvLog LevelInfo StartingClient; EvLog LevelInfo ConnectingTo]
          ++ broadcast_is_online true (online_response env)
          ++ EvPost NewSession :: tail) /\
  (session_created (session_response env) self = false ->
   count is_fetch (fst run) = 0%nat /\
   count is_call (fst run) = 0%nat /\
   count (is_post_online false) (fst run) = 0%nat) /\
  (session_created (session_response env) self = true ->
   forall result,
     snd run = Returned result ->
     count (is_post_online false) (fst run) = 1%nat /\
     exists before,
       fst run = before ++ broadcast_is_online false (offline_response env) /\
       count (is_post_online false) before = 0%nat).
Proof.
  cbv zeta. split; [apply update_loop_begins|].
  unfold update_loop, session_created, broadcast_is_online.
  pose proof (create_session_count is_fetch (session_response env) self
                                   eq_refl (fun _ _ => eq_refl)) as Hf.
  pose proof (create_session_count is_call (session_response env) self
                                   eq_refl (fun _ _ => eq_refl)) as Hc.
  pose proof (create_session_count (is_post_online false)
                                   (session_response env) self
                                   eq_refl (fun _ _ => eq_refl)) as Ho.
  assert (Hstart : forall p,
             p (EvPost (SetOnline true)) = false ->
             (forall level message, p (EvLog level message) = false) ->
             count p
               ([EvLog LevelInfo StartingClient; EvLog LevelInfo ConnectingTo]
                  ++ EvPost (SetOnline true)
                  :: snd (check_status (online_response env)))
             = 0%nat).
  { intros p Hp Hl.
    repeat (rewrite count_app || rewrite count_cons).
    rewrite !Hl, Hp. simpl. apply count_zero.
    pose proof (check_status_logs (online_response env)) as H.
    induction H as [|e logs [m ->] _ IH]; constructor; auto. }
  set (start :=
         [EvLog LevelInfo StartingClient; EvLog LevelInfo ConnectingTo]
           ++ EvPost (SetOnline true)
           :: snd (check_status (online_response env))) in *.
  destruct (create_session (session_response env) self)
    as [strace [[[|] self']|]]; cbn [fst snd] in *.
  - split; [discriminate|]. intros _ result.
    pose proof (poll_loop_no_online false self' (cycles env) server) as Hp.
    destruct (poll_loop deserialize self' (cycles env) server)
      as [polls [server'|]]; cbn [fst snd] in *; [|discriminate].
    intros _.
    set (offline := EvPost (SetOnline false)
                      :: snd (check_status (offline_response env))).
    assert (Hbefore :
              count (is_post_online false) (start ++ strace ++ polls)
              = 0%nat).
    { rewrite count_app, (Hstart _ eq_refl (fun _ _ => eq_refl)).
      now rewrite count_app, Ho, Hp. }
    assert (Hsplit : start ++ strace ++ polls ++ offline
                     = (start ++ strace ++ polls) ++ offline).
    { now rewrite <- !app_assoc. }
    split.
    + rewrite Hsplit, count_app, Hbefore. subst offline.
      rewrite count_cons, check_status_no_online. reflexivity.
    + exists (start ++ strace ++ polls). split; [exact Hsplit | exact Hbefore].
  - split; [|discriminate]. intros _.
    rewrite !(count_app _ start strace), Hf, Hc, Ho.
    rewrite !Hstart by (intros; reflexivity). auto.
  - split; [|discriminate]. intros _.
    rewrite !(count_app _ start strace), Hf, Hc, Ho.
    rewrite !Hstart by (intros; reflexivity). auto.
Qed.

End Decoder.

Lemma failed_fetch_cycle_witness :
  poll_iteration sample_deserialize sample_gateway
                 (mkCycle bad_password accepted) initial
  = ([EvPost Fetch;
      EvLog LevelError
            (FetchFailed 403 (ErrorField (JString "bad password")))],
     Returned initial) /\
  poll_iteration sample_deserialize sample_gateway (mkCycle None accepted)
                 initial
  = ([EvPost Fetch; EvLog LevelError InvalidResponse], Returned initial).
Proof.
  split.
  - pose proof (failed_fetch_cycle sample_deserialize sample_gateway
                  (mkCycle bad_password accepted) [] initial eq_refl) as H.
    cbv zeta in H. destruct H as [H _]. exact H.
  - pose proof (failed_fetch_cycle sample_deserialize sample_gateway
                  (mkCycle None accepted) [] initial eq_refl) as H.
    cbv zeta in H. destruct H as [H _]. exact H.
Defined.

(** At the input where /newsession answers HTTP 403 with
    [{"error":"bad password"}]. *)
Lemma update_loop_session_failure_witness :
  update_loop sample_deserialize
              (mkEnvironment accepted bad_password
                             [mkCycle accepted accepted] accepted)
              sample_gateway initial
  = ([EvLog LevelInfo StartingClient; EvLog LevelInfo ConnectingTo;
      EvPost (SetOnline true); EvPost NewSession;
      EvLog LevelError (FetchFailed 403 (ErrorField (JString "bad password")));
      EvLog LevelWarn InvalidSessionResponse],
     Returned (sample_gateway, initial)).
Proof.
  pose proof (update_loop_session_failure sample_deserialize
                (mkEnvironment accepted bad_password
                               [mkCycle accepted accepted] accepted)
                sample_gateway initial eq_refl) as H.
  cbv zeta in H. destruct H as [H _]. exact H.
Defined.

Lemma update_loop_lifecycle_witness :
  count (is_post_online false)
        (fst (update_loop sample_deserialize
                (mkEnvironment
                   accepted
                   (Some (mkResponse 200
                            (Parsed (JObject [("password"%string,
                                               JString "s3")]))))
                   [mkCycle bad_password accepted; mkCycle accepted accepted]
                   accepted)
                sample_gateway initial))
  = 1%nat /\
  count is_fetch
        (fst (update_loop sample_deserialize
                (mkEnvironment accepted bad_password
                               [mkCycle accepted accepted] accepted)
                sample_gateway initial))
  = 0%nat.
Proof.
  split.
  - pose proof (update_loop_lifecycle sample_deserialize
                  (mkEnvironment
                     accepted
                     (Some (mkResponse 200
                              (Parsed (JObject [("password"%string,
                                                 JString "s3")]))))
                     [mkCycle bad_password accepted;
                      mkCycle accepted accepted]
                     accepted)
                  sample_gateway initial) as H.
    cbv zeta in H. destruct H as (_ & _ & H).
    apply (H eq_refl (mkGateway 1000 "s3", initial)). reflexivity.
  - pose proof (update_loop_lifecycle sample_deserialize
                  (mkEnvironment accepted bad_password
                                 [mkCycle accepted accepted] accepted)
                  sample_gateway initial) as H.
    cbv zeta in H. destruct H as (_ & H & _).
    apply (H eq_refl).
Defined.

(** C9, as stated, fails: the run in which /newsession answers HTTP 403
    with [{"error":"bad password"}] is complete, it returns, and the
    client, announced online at its start, is never announced offline. *)
Lemma offline_broadcast_counterexample :
  let run :=
    update_loop sample_deserialize
                (mkEnvironment accepted bad_password
                               [mkCycle accepted accepted] accepted)
                sample_gateway initial in
  snd run = Returned (sample_gateway, initial) /\
  count (is_post_online true) (fst run) = 1%nat /\
  count (is_post_online false) (fst run) = 0%nat /\
  count (is_post_online false) (fst run) <> 1%nat.
Proof. cbv zeta. vm_compute. repeat split. discriminate. Qed.

(** X19: the start of every run: the client is announced online, then
    the session is requested, before anything else is posted. *)
Lemma update_loop_starts deserialize env self server :
  exists tail,
    fst (update_loop deserialize env self server)
    = [EvLog LevelInfo StartingClient; EvLog LevelInfo ConnectingTo]
        ++ broadcast_is_online true (online_response env)
        ++ EvPost NewSession :: tail.
Proof. apply update_loop_begins. Qed.

(** A run in which the session is created and one pass fetches the tasks
    [true] and [4]: the device is switched on and stepped up to 4, the state
    is posted, and the client is announced offline once, at the end. *)
Example update_loop_one_pass :
  update_loop sample_deserialize
    (mkEnvironment
       accepted
       (Some (mkResponse 200
                (Parsed (JObject [("password"%string, JString "s3")]))))
       [mkCycle
          (Some (mkResponse 200
                   (Parsed (JObject [("tasks"%string,
                                      JArray [JBool true; JNumber 4])]))))
          accepted]
       accepted)
    sample_gateway initial
  = ([EvLog LevelInfo StartingClient; EvLog LevelInfo ConnectingTo;
      EvPost (SetOnline true); EvPost NewSession;
      EvLog LevelInfo (CreatedSessionPassword "s3");
      EvPost Fetch; EvCall (POWER true); EvCall (SPEED 4);
      EvPost (SetState (mkStateSnapshot true false 4 0 DEFAULT));
      EvSleep 1000;
      EvPost (SetOnline false)],
     Returned (mkGateway 1000 "s3",
               mkServer true (mkDeviceState true DEFAULT 4 0)
                        [MESSAGE_ON; MESSAGE_HIGHER; MESSAGE_HIGHER;
                         MESSAGE_HIGHER])).
Proof. vm_compute. reflexivity. Qed.

(** ** Further properties of the baud-rate table *)

(** X1: every supported rate is found again from its own count. *)
Theorem find_closest_baud_rate_round_trip (b : Serial.BaudRate) :
  Serial.find_closest_baud_rate (Serial.to_baud_rate_count b) = b.
Proof. destruct b; reflexivity. Qed.

Lemma find_closest_baud_rate_cases (rate : Z) :
  (rate <= 50 /\ Serial.find_closest_baud_rate rate = Serial._50) \/
  (50 < rate <= 75 /\ Serial.find_closest_baud_rate rate = Serial._75) \/
  (75 < rate <= 110 /\ Serial.find_closest_baud_rate rate = Serial._110) \/
  (110 < rate <= 134 /\ Serial.find_closest_baud_rate rate = Serial._134) \/
  (134 < rate <= 150 /\ Serial.find_closest_baud_rate rate = Serial._150) \/
  (150 < rate <= 200 /\ Serial.find_closest_baud_rate rate = Serial._200) \/
  (200 < rate <= 300 /\ Serial.find_closest_baud_rate rate = Serial._300) \/
  (300 < rate <= 600 /\ Serial.find_closest_baud_rate rate = Serial._600) \/
  (600 < rate <= 1200 /\ Serial.find_closest_baud_rate rate = Serial._1200) \/
  (1200 < rate <= 1800 /\ Serial.find_closest_baud_rate rate = Serial._1800) \/
  (1800 < rate <= 2400 /\ Serial.find_closest_baud_rate rate = Serial._2400) \/
  (2400 < rate <= 4800 /\ Serial.find_closest_baud_rate rate = Serial._4800) \/
  (4800 < rate <= 9600 /\ Serial.find_closest_baud_rate rate = Serial._9600) \/
  (9600 < rate <= 19200 /\
   Serial.find_closest_baud_rate rate = Serial._19200) \/
  (19200 < rate <= 38400 /\
   Serial.find_closest_baud_rate rate = Serial._38400) \/
  (38400 < rate /\ Serial.find_closest_baud_rate rate = Serial._9600).
Proof.
  unfold Serial.find_closest_baud_rate.
  repeat match goal with
         | |- context [?a <=? ?b] => destruct (Z.leb_spec a b)
         end; intuition lia.
Qed.

(** X2: up to 38400 a larger request never gets a smaller rate; and
    whatever the request, the rate chosen lies between 50 and 38400. *)
Theorem find_closest_baud_rate_monotone (r1 r2 : Z) :
  (r1 <= r2 -> r2 <= 38400 ->
   Serial.to_baud_rate_count (Serial.find_closest_baud_rate r1)
   <= Serial.to_baud_rate_count (Serial.find_closest_baud_rate r2)) /\
  50 <= Serial.to_baud_rate_count (Serial.find_closest_baud_rate r1) <= 38400.
Proof.
  split.
  - intros Hle Hmax.
    destruct (find_closest_baud_rate_cases r1)
      as [[H1 ->]|[[H1 ->]|[[H1 ->]|[[H1 ->]|[[H1 ->]|[[H1 ->]|[[H1 ->]
         |[[H1 ->]|[[H1 ->]|[[H1 ->]|[[H1 ->]|[[H1 ->]|[[H1 ->]|[[H1 ->]
         |[[H1 ->]|[H1 ->]]]]]]]]]]]]]]]];
      destruct (find_closest_baud_rate_cases r2)
        as [[H2 ->]|[[H2 ->]|[[H2 ->]|[[H2 ->]|[[H2 ->]|[[H2 ->]|[[H2 ->]
           |[[H2 ->]|[[H2 ->]|[[H2 ->]|[[H2 ->]|[[H2 ->]|[[H2 ->]|[[H2 ->]
           |[[H2 ->]|[H2 ->]]]]]]]]]]]]]]]];
      simpl; lia.
  - destruct (Serial.find_closest_baud_rate r1); simpl; lia.
Qed.

Lemma find_closest_baud_rate_monotone_witness :
  Serial.to_baud_rate_count (Serial.find_closest_baud_rate 100)
  <= Serial.to_baud_rate_count (Serial.find_closest_baud_rate 19200).
Proof.
  apply (proj1 (find_closest_baud_rate_monotone 100 19200)); lia.
Defined.

(** ** Further properties of the mutation operations *)

Lemma store_target_speed_same self :
  store_target_speed (get_target_speed self) self = self.
Proof. destruct self as [r [o m t a] q]. reflexivity. Qed.

Lemma set_speed_steps_fixed speed self :
  get_target_speed self = speed -> set_speed_steps speed self = self.
Proof.
  intros <-. unfold set_speed_steps.
  rewrite Z.ltb_irrefl.
  destruct (Z.gtb_spec (get_target_speed self) (get_target_speed self));
    [lia|].
  apply store_target_speed_same.
Qed.

Lemma set_speed_is_on speed self :
  is_on (_device_state (set_speed speed self))
  = if negb (is_on (_device_state self)) && (speed >? 0) then true
    else if is_on (_device_state self) && (speed =? 0) then false
    else is_on (_device_state self).
Proof.
  unfold set_speed.
  destruct (negb (is_on (_device_state self)) && (speed >? 0)).
  - rewrite set_speed_steps_state. simpl. apply set_is_on_is_on.
  - destruct (is_on (_device_state self) && (speed =? 0)).
    + apply set_is_on_is_on.
    + now rewrite set_speed_steps_state.
Qed.

(** X3: [set_speed] is idempotent: a second call with the same argument
    changes nothing, in particular it appends no command. *)
Theorem set_speed_idempotent (speed : Z) (self : Server) :
  set_speed speed (set_speed speed self) = set_speed speed self.
Proof.
  pose proof (set_speed_target speed self) as Ht.
  pose proof (set_speed_is_on speed self) as Hon.
  unfold set_speed at 1. rewrite Hon.
  destruct (is_on (_device_state self));
    destruct (Z.gtb_spec speed 0); destruct (Z.eqb_spec speed 0);
    simpl; try lia; now apply set_speed_steps_fixed.
Qed.

(** Each console command does nothing, or is [exit], or comes down to one
    of the mutation operations; for [lower] and [higher] on a device whose
    target lies between 0 and [MAX_SPEED], the speed passed on does too. *)
Lemma command_step_cases command self :
  0 <= get_target_speed self <= MAX_SPEED ->
  command_step command self = self \/
  (String.eqb command "exit" = true /\
   command_step command self = command_exit self) \/
  (exists on, command_step command self = set_is_on on self) \/
  (exists m, command_step command self = set_mode m self) \/
  (exists speed, 0 <= speed <= MAX_SPEED /\
                 command_step command self = set_speed speed self).
Proof.
  intros Hrange. unfold command_step.
  destruct (String.eqb command ""); [now left|].
  destruct (String.eqb command "help"); [now left|].
  destruct (String.eqb command "exit"); [right; left; now split|].
  destruct (String.eqb command "power").
  { right; right; left. eexists. reflexivity. }
  destruct (String.eqb command "mode").
  { unfold command_mode.
    destruct (negb (is_on (_device_state self))); [now left|].
    right; right; right; left. eexists. reflexivity. }
  unfold MAX_SPEED in *.
  destruct (String.eqb command "lower").
  { unfold command_lower.
    destruct (negb (is_on (_device_state self))); simpl; [now left|].
    destruct (Z.eqb_spec (get_target_speed self) 0); [now left|].
    right; right; right; right.
    exists (get_target_speed self - 1). unfold Int32.sub.
    rewrite wrap_small by (int32_bounds; lia). split; [lia | reflexivity]. }
  destruct (String.eqb command "higher"); [|now left].
  unfold command_higher, MAX_SPEED.
  destruct (negb (is_on (_device_state self))); simpl; [now left|].
  destruct (Z.eqb_spec (get_target_speed self) 32); [now left|].
  right; right; right; right.
  exists (get_target_speed self + 1). unfold Int32.add.
  rewrite wrap_small by (int32_bounds; lia). split; [lia | reflexivity].
Qed.

Lemma power_agrees_range self :
  power_agrees self -> 0 <= get_target_speed self <= MAX_SPEED.
Proof.
  unfold power_agrees, MAX_SPEED.
  destruct (is_on (_device_state self)); lia.
Qed.

Lemma set_is_on_power_agrees on self :
  power_agrees self -> power_agrees (set_is_on on self).
Proof.
  unfold set_is_on.
  destruct (Bool.eqb (is_on (_device_state self)) on); auto.
  intros _. unfold power_agrees, get_target_speed, MAX_SPEED. simpl.
  destruct on; lia.
Qed.

Lemma set_speed_power_agrees speed self :
  0 <= speed <= MAX_SPEED -> power_agrees (set_speed speed self).
Proof.
  intros Hspeed. unfold power_agrees.
  rewrite set_speed_is_on, set_speed_target. unfold MAX_SPEED in *.
  destruct (is_on (_device_state self));
    destruct (Z.gtb_spec speed 0); destruct (Z.eqb_spec speed 0);
    simpl; lia.
Qed.

Lemma set_mode_power_agrees m self :
  power_agrees self -> power_agrees (set_mode m self).
Proof.
  unfold set_mode. destruct (is_on (_device_state self)) eqn:Hon; simpl; auto.
Qed.

Lemma receive_power_agrees reads self :
  power_agrees self -> power_agrees (fst (receive reads self)).
Proof. rewrite receive_frame. auto. Qed.

Lemma apply_power_agrees op self :
  speed_argument_in_range op -> is_exit op = false ->
  power_agrees self -> power_agrees (apply op self).
Proof.
  intros Harg Hexit H. destruct op as [on|speed|m|reads|command]; simpl in *.
  - now apply set_is_on_power_agrees.
  - now apply set_speed_power_agrees.
  - now apply set_mode_power_agrees.
  - now apply receive_power_agrees.
  - destruct (command_step_cases command self (power_agrees_range self H))
      as [->|[[E _]|[[on ->]|[[m ->]|(speed & Hs & ->)]]]]; auto.
    + congruence.
    + now apply set_is_on_power_agrees.
    + now apply set_mode_power_agrees.
    + now apply set_speed_power_agrees.
Qed.

Lemma power_agrees_on_has_target self :
  power_agrees self -> on_has_target self.
Proof.
  unfold power_agrees, on_has_target, MAX_SPEED.
  destruct (is_on (_device_state self)); intuition (try lia; discriminate).
Qed.

Lemma apply_on_has_target op self :
  speed_argument_in_range op ->
  on_has_target self -> on_has_target (apply op self).
Proof.
  intros Harg H.
  assert (Hset : forall on, on_has_target (set_is_on on self)).
  { intros on. unfold set_is_on.
    destruct (Bool.eqb (is_on (_device_state self)) on); auto.
    unfold on_has_target, get_target_speed, MAX_SPEED. simpl.
    destruct on; split; try lia; discriminate. }
  assert (Hmode : forall m, on_has_target (set_mode m self)).
  { intros m. unfold set_mode.
    destruct (is_on (_device_state self)) eqn:Hon; simpl; auto. }
  assert (Hspeed : forall speed, 0 <= speed <= MAX_SPEED ->
                                 on_has_target (set_speed speed self)).
  { intros speed Hs. apply power_agrees_on_has_target.
    now apply set_speed_power_agrees. }
  destruct op as [on|speed|m|reads|command]; simpl in *; auto.
  - rewrite receive_frame. exact H.
  - destruct (command_step_cases command self (proj1 H))
      as [->|[[_ ->]|[[on ->]|[[m ->]|(speed & Hs & ->)]]]]; auto.
    destruct H as [Hrange _].
    unfold command_exit, on_has_target, get_target_speed in *.
    destruct (is_on (_device_state self)) eqn:Hon; simpl; rewrite ?Hon;
      (split; [exact Hrange | intros E; discriminate E]).
Qed.

(** X4: along every sequence of operations from the initial state whose
    [set_speed] arguments lie within [0,32], the target stays within [0,32]
    and a device that is on has a target of at least 1; if moreover the
    console command [exit] does not occur, a device that is off has
    target 0. *)
Theorem power_and_target_agree (ops : list Op) :
  Forall speed_argument_in_range ops ->
  on_has_target (run ops initial) /\
  (Forall (fun op => is_exit op = false) ops ->
   power_agrees (run ops initial)).
Proof.
  intros Hargs. split.
  - assert (H0 : on_has_target initial).
    { unfold on_has_target. vm_compute. intuition discriminate. }
    revert H0. generalize initial.
    induction Hargs as [|op ops Hop Hargs IH]; intros self H; simpl; auto.
    apply IH. now apply apply_on_has_target.
  - intros Hexit.
    assert (H0 : power_agrees initial) by reflexivity.
    revert H0. generalize initial.
    induction Hargs as [|op ops Hop Hargs IH]; intros self H; simpl; auto.
    inversion Hexit; subst. apply IH; auto.
    now apply apply_power_agrees.
Qed.

Lemma power_and_target_agree_witness :
  power_agrees
    (run [OpSetSpeed 3; OpCommand "lower"; OpCommand "power";
          OpReceive (bytes "speed_up"); OpCommand "higher"] initial).
Proof.
  apply (proj2 (power_and_target_agree
                  [OpSetSpeed 3; OpCommand "lower"; OpCommand "power";
                   OpReceive (bytes "speed_up"); OpCommand "higher"]
                  ltac:(repeat constructor; vm_compute; discriminate))).
  repeat constructor.
Defined.

(** The console command [exit] breaks the agreement: it clears [is_on] and
    leaves the target where it was. *)
Example exit_keeps_target :
  let self := run [OpSetSpeed 5; OpCommand "exit"] initial in
  is_on (_device_state self) = false /\ get_target_speed self = 5.
Proof. vm_compute. split; reflexivity. Qed.

(** ** The queue as a plan for the device *)

Lemma handle_feedback_actual feedback self :
  get_actual_speed (handle_feedback feedback self)
  = get_actual_speed
      (handle_feedback feedback
                       (store_actual_speed (get_actual_speed self) initial)).
Proof. unfold handle_feedback. case_strings; reflexivity. Qed.

Lemma acknowledge_all_actual messages self :
  get_actual_speed (acknowledge_all messages self)
  = fold_left acknowledged_speed messages (get_actual_speed self).
Proof.
  revert self. induction messages as [|c messages IH]; intros self.
  - reflexivity.
  - unfold acknowledge_all in *. simpl. rewrite IH.
    f_equal. apply handle_feedback_actual.
Qed.

Lemma fold_higher (n : nat) (a : Z) :
  Int32.in_range a -> a + Z.of_nat n <= Int32.max_signed ->
  fold_left acknowledged_speed (repeat MESSAGE_HIGHER n) a = a + Z.of_nat n.
Proof.
  revert a. induction n as [|n IH]; intros a Ha Hn.
  - simpl. lia.
  - cbn [repeat fold_left].
    change (acknowledged_speed a MESSAGE_HIGHER) with (Int32.add a 1).
    unfold Int32.add. rewrite wrap_small by (int32_bounds; lia).
    rewrite IH by (int32_bounds; lia). lia.
Qed.

Lemma fold_lower (n : nat) (a : Z) :
  Int32.in_range a -> Int32.min_signed <= a - Z.of_nat n ->
  fold_left acknowledged_speed (repeat MESSAGE_LOWER n) a = a - Z.of_nat n.
Proof.
  revert a. induction n as [|n IH]; intros a Ha Hn.
  - simpl. lia.
  - cbn [repeat fold_left].
    change (acknowledged_speed a MESSAGE_LOWER) with (Int32.sub a 1).
    unfold Int32.sub. rewrite wrap_small by (int32_bounds; lia).
    rewrite IH by (int32_bounds; lia). lia.
Qed.

Lemma steps_plan (t a : Z) :
  0 <= t <= MAX_SPEED -> 0 <= a <= MAX_SPEED ->
  fold_left acknowledged_speed
    (if a <? t then repeat MESSAGE_HIGHER (Z.to_nat (Int32.sub t a))
     else if a >? t then repeat MESSAGE_LOWER (Z.to_nat (Int32.sub a t))
     else []) a
  = t.
Proof.
  unfold MAX_SPEED. intros Ht Ha. unfold Int32.sub.
  destruct (Z.ltb_spec a t); [|destruct (Z.gtb_spec a t)].
  - rewrite wrap_small by (int32_bounds; lia).
    rewrite fold_higher; int32_bounds; lia.
  - rewrite wrap_small by (int32_bounds; lia).
    rewrite fold_lower; int32_bounds; lia.
  - simpl. lia.
Qed.

Lemma plan_extend self self' added :
  planned_speed self = get_target_speed self ->
  _message_queue self' = _message_queue self ++ added ->
  fold_left acknowledged_speed added (get_target_speed self)
  = get_target_speed self' ->
  planned_speed self' = get_target_speed self'.
Proof.
  unfold planned_speed. intros Hplan -> <-.
  now rewrite fold_left_app, Hplan.
Qed.

Lemma set_is_on_plan on self :
  planned_speed self = get_target_speed self ->
  planned_speed (set_is_on on self) = get_target_speed (set_is_on on self).
Proof.
  intros H. eapply plan_extend; [exact H | apply set_is_on_queue |].
  unfold set_is_on.
  destruct (Bool.eqb (is_on (_device_state self)) on); [reflexivity|].
  destruct on; reflexivity.
Qed.

Lemma set_speed_steps_target speed self :
  get_target_speed (set_speed_steps speed self) = speed.
Proof. unfold get_target_speed. now rewrite set_speed_steps_state. Qed.

Lemma set_speed_plan speed self :
  0 <= speed <= MAX_SPEED -> 0 <= get_target_speed self <= MAX_SPEED ->
  planned_speed self = get_target_speed self ->
  planned_speed (set_speed speed self)
  = get_target_speed (set_speed speed self).
Proof.
  intros Hs Ht H. unfold set_speed.
  destruct (negb (is_on (_device_state self)) && (speed >? 0)) eqn:E1.
  - apply andb_prop in E1. destruct E1 as [Hoff _].
    apply negb_true_iff in Hoff.
    pose proof (set_is_on_plan true self H) as H1.
    assert (Hone : get_target_speed (set_is_on true self) = 1).
    { unfold set_is_on, get_target_speed. rewrite Hoff. reflexivity. }
    eapply plan_extend; [exact H1 | apply set_speed_steps_queue |].
    rewrite set_speed_steps_target, Hone.
    apply steps_plan; unfold MAX_SPEED in *; lia.
  - destruct (is_on (_device_state self) && (speed =? 0)).
    + now apply set_is_on_plan.
    + eapply plan_extend; [exact H | apply set_speed_steps_queue |].
      rewrite set_speed_steps_target. now apply steps_plan.
Qed.

Lemma apply_plan op self :
  speed_argument_in_range op -> is_exit op = false ->
  power_agrees self ->
  planned_speed self = get_target_speed self ->
  planned_speed (apply op self) = get_target_speed (apply op self).
Proof.
  intros Harg Hexit Hagree H.
  pose proof (power_agrees_range self Hagree) as Hrange.
  assert (Hmode : forall m, planned_speed (set_mode m self)
                            = get_target_speed (set_mode m self)).
  { intros m. unfold set_mode.
    destruct (negb (is_on (_device_state self))); exact H. }
  destruct op as [on|speed|m|reads|command]; simpl in *; auto.
  - now apply set_is_on_plan.
  - now apply set_speed_plan.
  - rewrite receive_frame. exact H.
  - destruct (command_step_cases command self Hrange)
      as [->|[[E _]|[[on ->]|[[m ->]|(speed & Hs & ->)]]]]; auto.
    + congruence.
    + now apply set_is_on_plan.
    + now apply set_speed_plan.
Qed.

(** X5: the queue is a plan that reaches the target.  Along every sequence
    of operations from the initial state whose [set_speed] arguments lie
    within [0,32] and in which the console command [exit] does not occur, a
    device that starts at speed 0 and reports each command of the queue, in
    order, with its feedback token leaves [actual_speed] equal to
    [target_speed], so that [accepts_commands] holds again. *)
Theorem queue_reaches_target (ops : list Op) :
  Forall speed_argument_in_range ops ->
  Forall (fun op => is_exit op = false) ops ->
  let self := run ops initial in
  get_actual_speed (acknowledge_all (_message_queue self) initial)
  = get_target_speed self /\
  accepts_commands
    (store_actual_speed
       (get_actual_speed (acknowledge_all (_message_queue self) initial))
       self) = true.
Proof.
  intros Hargs Hexit self.
  assert (H : planned_speed self = get_target_speed self).
  { subst self.
    assert (H0 : power_agrees initial /\
                 planned_speed initial = get_target_speed initial)
      by (split; reflexivity).
    revert H0 Hexit. generalize initial.
    induction Hargs as [|op ops Hop Hargs IH]; intros s [Ha Hp] Hexit.
    - exact Hp.
    - inversion Hexit; subst. simpl. apply IH; auto. split.
      + now apply apply_power_agrees.
      + now apply apply_plan. }
  clearbody self.
  rewrite acknowledge_all_actual.
  change (fold_left acknowledged_speed (_message_queue self)
                    (get_actual_speed initial))
    with (planned_speed self).
  split; [exact H|].
  unfold accepts_commands.
  change (get_actual_speed (store_actual_speed (planned_speed self) self))
    with (planned_speed self).
  change (get_target_speed (store_actual_speed (planned_speed self) self))
    with (get_target_speed self).
  rewrite H. apply Z.eqb_refl.
Qed.

Lemma queue_reaches_target_witness :
  get_actual_speed
    (acknowledge_all
       (_message_queue
          (run [OpSetSpeed 4; OpSetSpeed 2; OpCommand "higher"] initial))
       initial)
  = 3.
Proof.
  pose proof (queue_reaches_target
                [OpSetSpeed 4; OpSetSpeed 2; OpCommand "higher"]
                ltac:(repeat constructor; vm_compute; discriminate)
                ltac:(repeat constructor)) as H.
  cbv zeta in H. destruct H as [H _]. rewrite H. reflexivity.
Defined.

(** ** The console commands *)

(** X6: on a device that is on, [lower] above speed 1 appends one LOWER and
    lowers the target by one, at speed 1 it switches the device off (one
    OFF, target 0), and at speed 0 it does nothing; [higher] below
    [MAX_SPEED] appends one HIGHER and raises the target by one, and at
    [MAX_SPEED] it does nothing.  On a device that is off both do
    nothing. *)
Theorem console_speed_steps (self : Server) :
  (is_on (_device_state self) = false ->
   command_step "lower" self = self /\ command_step "higher" self = self) /\
  (is_on (_device_state self) = true ->
   (1 < get_target_speed self <= MAX_SPEED ->
    command_step "lower" self
    = mkServer (_is_running self)
               (mkDeviceState true (mode (_device_state self))
                              (get_target_speed self - 1)
                              (actual_speed (_device_state self)))
               (_message_queue self ++ [MESSAGE_LOWER])) /\
   (get_target_speed self = 1 ->
    command_step "lower" self
    = mkServer (_is_running self)
               (mkDeviceState false (mode (_device_state self)) 0
                              (actual_speed (_device_state self)))
               (_message_queue self ++ [MESSAGE_OFF])) /\
   (get_target_speed self = 0 -> command_step "lower" self = self) /\
   (0 <= get_target_speed self < MAX_SPEED ->
    command_step "higher" self
    = mkServer (_is_running self)
               (mkDeviceState true (mode (_device_state self))
                              (get_target_speed self + 1)
                              (actual_speed (_device_state self)))
               (_message_queue self ++ [MESSAGE_HIGHER])) /\
   (get_target_speed self = MAX_SPEED -> command_step "higher" self = self)).
Proof.
  change (command_step "lower" self) with (command_lower self).
  change (command_step "higher" self) with (command_higher self).
  unfold command_lower, command_higher, MAX_SPEED.
  split; intros Hon; rewrite Hon; simpl; [split; reflexivity|].
  repeat split.
  - intros Ht. destruct (Z.eqb_spec (get_target_speed self) 0); [lia|].
    unfold set_speed. rewrite Hon. simpl. unfold Int32.sub.
    rewrite wrap_small by (int32_bounds; lia).
    destruct (Z.eqb_spec (get_target_speed self - 1) 0); [lia|].
    unfold set_speed_steps.
    destruct (Z.ltb_spec (get_target_speed self) (get_target_speed self - 1));
      [lia|].
    destruct (Z.gtb_spec (get_target_speed self) (get_target_speed self - 1));
      [|lia].
    unfold Int32.sub. rewrite wrap_small by (int32_bounds; lia).
    replace (get_target_speed self - (get_target_speed self - 1)) with 1
      by lia.
    unfold push_loop, store_target_speed. simpl. now rewrite Hon.
  - intros Ht. rewrite Ht. simpl.
    unfold set_speed. rewrite Hon. simpl.
    unfold set_is_on. rewrite Hon. reflexivity.
  - intros Ht. rewrite Ht. reflexivity.
  - intros Ht. destruct (Z.eqb_spec (get_target_speed self) 32); [lia|].
    unfold set_speed. rewrite Hon. simpl. unfold Int32.add.
    rewrite wrap_small by (int32_bounds; lia).
    destruct (Z.eqb_spec (get_target_speed self + 1) 0); [lia|].
    unfold set_speed_steps.
    destruct (Z.ltb_spec (get_target_speed self) (get_target_speed self + 1));
      [|lia].
    unfold Int32.sub. rewrite wrap_small by (int32_bounds; lia).
    replace (get_target_speed self + 1 - get_target_speed self) with 1
      by lia.
    unfold push_loop, store_target_speed. simpl. now rewrite Hon.
  - intros Ht. rewrite Ht. reflexivity.
Qed.

Lemma console_speed_steps_witness :
  command_step "lower" initial = initial /\
  _message_queue (command_step "lower" (set_speed 1 initial))
  = [MESSAGE_ON; MESSAGE_OFF] /\
  get_target_speed (command_step "higher" (set_speed 31 initial)) = 32 /\
  command_step "higher" (set_speed 32 initial) = set_speed 32 initial.
Proof.
  split; [|split; [|split]].
  - apply (proj1 (console_speed_steps initial)). reflexivity.
  - rewrite (proj1 (proj2 (proj2 (console_speed_steps (set_speed 1 initial))
                             eq_refl)));
      reflexivity.
  - rewrite (proj1 (proj2 (proj2 (proj2
               (proj2 (console_speed_steps (set_speed 31 initial))
                      eq_refl))))).
    + reflexivity.
    + vm_compute. split; [discriminate | reflexivity].
  - apply (proj2 (proj2 (proj2 (proj2
             (proj2 (console_speed_steps (set_speed 32 initial))
                    eq_refl))))).
    reflexivity.
Defined.

(** ** The transmit loop *)

Lemma combine_nil_r {A B} (l : list A) : combine l (@nil B) = [].
Proof. destruct l; reflexivity. Qed.

(** X8: the transmit loop is a FIFO that tries every command once.  While
    the server is running, [n] passes pop the first [n] commands of the
    queue (all of them when it holds fewer), in order; each is written once
    and counted as sent or, when the write fails, as dropped, never retried;
    the rest of the queue and the device state are left as they were. *)
Theorem tx_loop_fifo (writes : list bool) (self : Server) :
  _is_running self = true ->
  tx_loop writes self
  = (mkServer true (_device_state self)
              (skipn (List.length writes) (_message_queue self)),
     map transmission_of (combine writes (_message_queue self))).
Proof.
  revert self. induction writes as [|write_ok writes IH]; intros self Hrun.
  - simpl. destruct self as [r st q]. simpl in Hrun. now subst r.
  - simpl tx_loop. rewrite Hrun. simpl negb. cbv iota.
    unfold tx_iteration.
    destruct self as [r st [|message q]]; simpl in Hrun; subst r; simpl.
    + rewrite (IH (mkServer true st [])) by reflexivity. simpl.
      now rewrite skipn_nil, combine_nil_r.
    + rewrite (IH (mkServer true st q)) by reflexivity. simpl.
      reflexivity.
Qed.

Lemma tx_loop_fifo_witness :
  tx_loop [true; false; true] (set_speed 4 initial)
  = (mkServer true (mkDeviceState true DEFAULT 4 0) [MESSAGE_HIGHER],
     [Sent MESSAGE_ON; Dropped MESSAGE_HIGHER; Sent MESSAGE_HIGHER]).
Proof.
  rewrite (tx_loop_fifo [true; false; true] (set_speed 4 initial) eq_refl).
  reflexivity.
Defined.

(** X7: the console command [exit] clears [_is_running] and [is_on],
    appends one OFF when the device was on and nothing otherwise, and leaves
    the target speed and the mode as they were.  Once it has run, neither
    the transmit loop nor the receive loop does anything more: the OFF it
    has appended stays in the queue. *)
Theorem exit_stops_the_loops (self : Server) :
  command_step "exit" self
  = mkServer false
             (mkDeviceState false (mode (_device_state self))
                            (target_speed (_device_state self))
                            (actual_speed (_device_state self)))
             (_message_queue self
                ++ if is_on (_device_state self) then [MESSAGE_OFF] else []) /\
  (forall writes,
      tx_loop writes (command_step "exit" self)
      = (command_step "exit" self, [])) /\
  (forall reads,
      receive reads (command_step "exit" self)
      = (command_step "exit" self, [])).
Proof.
  change (command_step "exit" self) with (command_exit self).
  assert (E : _is_running (command_exit self) = false) by reflexivity.
  split; [|split].
  - unfold command_exit.
    destruct self as [r [o m t a] q]. simpl.
    destruct o; simpl; [reflexivity | now rewrite app_nil_r].
  - intros [|w writes]; cbn [tx_loop]; [reflexivity | now rewrite E].
  - intros reads. unfold receive.
    destruct (List.length reads); cbn [rx_loop];
      [reflexivity | now rewrite E].
Qed.

(** ** The receive loop on whole lines *)

Lemma process_chunk_running self chunk :
  _is_running (process_chunk self chunk) = _is_running self.
Proof.
  destruct chunk; simpl; [reflexivity|].
  now rewrite handle_feedback_frame.
Qed.

Lemma rx_loop_line fuel chunk rest self :
  _is_running self = true ->
  ~ In line_feed chunk ->
  (List.length rest <= fuel)%nat ->
  rx_loop (S fuel) (map Some chunk ++ Some line_feed :: rest) self
  = (fst (receive rest (process_chunk self chunk)),
     chunk_log chunk ++ snd (receive rest (process_chunk self chunk))).
Proof.
  intros Hrun Hno Hfuel. cbn [rx_loop]. rewrite Hrun. cbn [negb].
  assert (Hit : rx_iteration (map Some chunk ++ Some line_feed :: rest) self
                = (rest, process_chunk self chunk, chunk_log chunk)).
  { unfold rx_iteration.
    rewrite read_line_chunk by (auto; now right). simpl.
    destruct chunk; reflexivity. }
  destruct (map Some chunk ++ Some line_feed :: rest) eqn:E.
  { destruct chunk; discriminate E. }
  rewrite Hit.
  rewrite rx_loop_enough_fuel by assumption.
  destruct (receive rest (process_chunk self chunk)); reflexivity.
Qed.

Lemma receive_wire_line chunk rest self :
  _is_running self = true ->
  ~ In line_feed chunk ->
  receive (wire_line chunk ++ rest) self
  = (fst (receive rest (process_chunk self chunk)),
     chunk_log chunk ++ snd (receive rest (process_chunk self chunk))).
Proof.
  intros Hrun Hno.
  assert (E : wire_line chunk ++ rest
              = map Some chunk ++ Some line_feed :: rest).
  { unfold wire_line. now rewrite <- app_assoc. }
  rewrite E.
  rewrite <- (rx_loop_line (List.length chunk + List.length rest)
                           chunk rest self Hrun Hno)
    by apply Nat.le_add_l.
  symmetry. apply rx_loop_enough_fuel.
  rewrite length_app, length_map. simpl. rewrite Nat.add_succ_r.
  apply Nat.le_refl.
Qed.

(** X9: on a running server, a stream of complete lines (none holding a
    line feed inside) is processed line by line, in order: the server ends
    as [handle_feedback] leaves it after each non-empty line in turn, and
    the device log holds the decoded non-empty lines in order. *)
Theorem receive_lines (chunks : list (list ascii)) (self : Server) :
  _is_running self = true ->
  Forall (fun chunk => ~ In line_feed chunk) chunks ->
  receive (List.concat (map wire_line chunks)) self
  = (fold_left process_chunk chunks self,
     List.concat (map chunk_log chunks)).
Proof.
  intros Hrun Hall. revert self Hrun.
  induction Hall as [|chunk chunks Hno Hall IH]; intros self Hrun.
  - reflexivity.
  - cbn [map List.concat fold_left].
    rewrite receive_wire_line by assumption.
    rewrite IH by (now rewrite process_chunk_running).
    reflexivity.
Qed.

Lemma receive_lines_witness :
  receive (bytes "power_on" ++ [Some line_feed]
             ++ bytes "speed_up" ++ [Some carriage_return; Some line_feed]
             ++ [Some line_feed]
             ++ bytes "hello" ++ [Some line_feed])
          initial
  = (store_actual_speed 2 initial,
     ["power_on"; "speed_up"; "hello"]%string).
Proof.
  pose proof (receive_lines
                [list_ascii_of_string "power_on";
                 list_ascii_of_string "speed_up" ++ [carriage_return];
                 [];
                 list_ascii_of_string "hello"]%list
                initial eq_refl
                ltac:(repeat constructor; vm_compute; intuition discriminate))
    as H.
  exact H.
Defined.

Lemma c_str_cut (chunk rest : list ascii) :
  ~ In zero chunk ->
  c_str (chunk ++ zero :: rest) = string_of_list_ascii chunk.
Proof.
  induction chunk as [|c chunk IH]; intros Hno; simpl.
  - reflexivity.
  - destruct (Ascii.eqb_spec c zero) as [->|Hne].
    + exfalso. apply Hno. now left.
    + rewrite IH; auto. intros Hin. apply Hno. now right.
Qed.

(** X10: a chunk is cut at its first NUL byte: whatever follows the NUL
    plays no part in the line that is classified. *)
Theorem decode_line_cut_at_nul (chunk rest : list ascii) :
  ~ In zero chunk ->
  decode_line (chunk ++ zero :: rest) = decode_line chunk.
Proof.
  intros Hno. unfold decode_line.
  rewrite <- app_assoc. simpl app.
  rewrite c_str_cut by assumption.
  now rewrite c_str_terminated.
Qed.

Lemma decode_line_cut_at_nul_witness :
  decode_line (list_ascii_of_string "power_on" ++ zero
                 :: list_ascii_of_string "garbage")
  = "power_on"%string.
Proof.
  rewrite (decode_line_cut_at_nul (list_ascii_of_string "power_on")
             (list_ascii_of_string "garbage")).
  - reflexivity.
  - vm_compute. intuition discriminate.
Defined.

(** ** Further properties of the gateway client *)

Lemma calls_count p tasks :
  (forall task, p (EvCall task) = false) ->
  count p (map EvCall tasks) = 0%nat.
Proof.
  intros Hp. apply count_zero.
  induction tasks; constructor; auto.
Qed.

(** X12: [create_session] returns true exactly for an HTTP 200 response
    whose body is an object holding a string under [password], and only
    then does it store a session password, namely that string; whenever it
    returns false the gateway is unchanged.  It never changes the update
    rate. *)
Theorem create_session_result (res : Result) (self : Gateway.Gateway) :
  (forall b self',
      snd (create_session res self) = Returned (b, self') ->
      Gateway._update_rate self' = Gateway._update_rate self /\
      (b = false -> self' = self) /\
      (b = true ->
       exists code res_body,
         res = Some (mkResponse code (Parsed res_body)) /\ code = 200 /\
         contains res_body "password" = true /\
         at_key res_body "password" = JString (_session_password self'))) /\
  (forall res_body password,
      res = Some (mkResponse 200 (Parsed res_body)) ->
      contains res_body "password" = true ->
      at_key res_body "password" = JString password ->
      create_session res self
      = ([EvPost NewSession;
          EvLog LevelInfo (CreatedSessionPassword password)],
         Returned (true, mkGateway (Gateway._update_rate self) password))).
Proof.
  split.
  - intros b self'. unfold create_session.
    pose proof (check_status_ok res) as Hok.
    destruct (check_status res) as [ok logs]. simpl in Hok. subst ok.
    destruct res as [[code [what|j]]|]; simpl is_http_200.
    + destruct (code =? 200); simpl; intros E; [discriminate|].
      injection E as <- <-. repeat split; auto. discriminate.
    + destruct (Z.eqb_spec code 200) as [->|Hne]; simpl.
      * destruct (contains j "password") eqn:Hc; simpl.
        -- destruct (at_key j "password") eqn:Hp; simpl; intros E;
             try discriminate.
           injection E as <- <-. repeat split; auto; try discriminate.
           intros _. exists 200, j. simpl. auto.
        -- intros E. injection E as <- <-. repeat split; auto. discriminate.
      * intros E. injection E as <- <-. repeat split; auto. discriminate.
    + simpl. intros E. injection E as <- <-. repeat split; auto. discriminate.
  - intros res_body password -> Hc Hp. unfold create_session. simpl.
    rewrite Hc, Hp. reflexivity.
Qed.

Lemma create_session_result_witness :
  create_session
    (Some (mkResponse 200
             (Parsed (JObject [("password"%string, JString "s3")]))))
    sample_gateway
  = ([EvPost NewSession; EvLog LevelInfo (CreatedSessionPassword "s3")],
     Returned (true, mkGateway 1000 "s3")) /\
  (forall b self',
      snd (create_session bad_password sample_gateway) = Returned (b, self') ->
      b = false -> self' = sample_gateway).
Proof.
  split.
  - apply (proj2 (create_session_result _ sample_gateway)
                 (JObject [("password"%string, JString "s3")]) "s3"%string);
      reflexivity.
  - intros b self' H.
    apply (proj1 (create_session_result bad_password sample_gateway)
                 b self' H).
Defined.

(** X13: [reset_session] clears the session password, announces the client
    offline and then online, and asks for a new session.  When that request
    is not answered with HTTP 200 the gateway is left with an empty session
    password; when it is answered with a password, that one is stored. *)
Theorem reset_session_password (offline_res online_res session_res : Result)
        (self : Gateway.Gateway) :
  (is_http_200 session_res = false ->
   reset_session offline_res online_res session_res self
   = (broadcast_is_online false offline_res
        ++ broadcast_is_online true online_res
        ++ [EvPost NewSession;
            EvLog LevelError (error_entry session_res);
            EvLog LevelWarn InvalidSessionResponse],
      Returned (mkGateway (Gateway._update_rate self) ""))) /\
  (forall res_body password,
      session_res = Some (mkResponse 200 (Parsed res_body)) ->
      contains res_body "password" = true ->
      at_key res_body "password" = JString password ->
      reset_session offline_res online_res session_res self
      = (broadcast_is_online false offline_res
           ++ broadcast_is_online true online_res
           ++ [EvPost NewSession;
               EvLog LevelInfo (CreatedSessionPassword password)],
         Returned (mkGateway (Gateway._update_rate self) password))).
Proof.
  split.
  - intros Hfail. unfold reset_session, create_session.
    rewrite check_status_failed by assumption. simpl.
    now rewrite <- app_assoc.
  - intros res_body password -> Hc Hp.
    unfold reset_session, create_session. simpl.
    rewrite Hc, Hp. simpl. now rewrite <- app_assoc.
Qed.

Lemma reset_session_password_witness :
  snd (reset_session accepted accepted bad_password
                     (mkGateway 1000 "old"))
  = Returned (mkGateway 1000 "").
Proof.
  rewrite (proj1 (reset_session_password accepted accepted bad_password
                                         (mkGateway 1000 "old")) eq_refl).
  reflexivity.
Defined.

Section Passes.

Variable deserialize : Json -> option Task.


Lemma dispatch_tasks_calls items server :
  exists tasks,
    fst (dispatch_tasks deserialize items server) = map EvCall tasks.
Proof.
  revert server. induction items as [|item items IH]; intros server; simpl.
  - now exists [].
  - destruct (deserialize item) as [task|]; [|now exists []].
    destruct (IH (dispatch task server)) as [tasks E].
    destruct (dispatch_tasks deserialize items (dispatch task server)).
    simpl in E. subst. now exists (task :: tasks).
Qed.



(** X15: a pass whose fetch is answered with HTTP 200 and a body that
    parses, but is not an object holding an array under [tasks], writes one
    warning and nothing else: no mutation operation is called, no state is
    posted, the pass does not sleep and the server is returned as it was. *)
Theorem malformed_tasks_cycle self cycle server res_body :
  fetch_response cycle = Some (mkResponse 200 (Parsed res_body)) ->
  is_object res_body && contains res_body "tasks"
    && is_array (at_key res_body "tasks") = false ->
  exists message,
    (message = MalformedResponseBody \/ message = TasksNotAnArray) /\
    poll_iteration deserialize self cycle server
    = ([EvPost Fetch; EvLog LevelWarn message], Returned server).
Proof.
  intros Hres Hbad. unfold poll_iteration. rewrite Hres. simpl.
  destruct (is_object res_body); simpl in *.
  - destruct (contains res_body "tasks"); simpl in *.
    + destruct (at_key res_body "tasks"); try discriminate;
        (exists TasksNotAnArray; split; [now right | reflexivity]).
    + exists MalformedResponseBody. split; [now left | reflexivity].
  - exists MalformedResponseBody. split; [now left | reflexivity].
Qed.


Lemma poll_iteration_counts self cycle server :
  let trace := fst (poll_iteration deserialize self cycle server) in
  count is_fetch trace = 1%nat /\
  count is_post_state trace = count is_sleep trace /\
  (count is_sleep trace <= 1)%nat.
Proof.
  unfold poll_iteration.
  pose proof (check_status_count is_fetch (fetch_response cycle)
                                 (fun _ => eq_refl)) as Hf.
  pose proof (check_status_count is_post_state (fetch_response cycle)
                                 (fun _ => eq_refl)) as Hp.
  pose proof (check_status_count is_sleep (fetch_response cycle)
                                 (fun _ => eq_refl)) as Hs.
  destruct (check_status (fetch_response cycle)) as [ok logs].
  cbn [snd] in Hf, Hp, Hs.
  assert (Hwarn : forall m,
             count is_fetch ((EvPost Fetch :: logs) ++ [EvLog LevelWarn m])
             = 1%nat /\
             count is_post_state
                   ((EvPost Fetch :: logs) ++ [EvLog LevelWarn m])
             = count is_sleep ((EvPost Fetch :: logs) ++ [EvLog LevelWarn m]) /\
             (count is_sleep ((EvPost Fetch :: logs) ++ [EvLog LevelWarn m])
              <= 1)%nat).
  { intros m. rewrite !count_app, !count_cons, Hf, Hp, Hs. unfold count. simpl.
    repeat split; lia. }
  assert (Hplain : count is_fetch (EvPost Fetch :: logs) = 1%nat /\
                   count is_post_state (EvPost Fetch :: logs)
                   = count is_sleep (EvPost Fetch :: logs) /\
                   (count is_sleep (EvPost Fetch :: logs) <= 1)%nat).
  { rewrite !count_cons, Hf, Hp, Hs. simpl. repeat split; lia. }
  destruct ok; cbn [negb]; cbv zeta; [|exact Hplain].
  destruct (fetch_response cycle) as [[code [what|j]]|]; cbn [fst];
    try exact Hplain.
  destruct (negb (is_object j) || negb (contains j "tasks"));
    [apply Hwarn|].
  destruct (at_key j "tasks"); try apply Hwarn.
  destruct (dispatch_tasks_calls items server) as [tasks Ecalls].
  destruct (dispatch_tasks deserialize items server) as [calls [server'|]];
    cbn [fst] in Ecalls |- *; subst calls; unfold broadcast_state;
    repeat (rewrite count_app || rewrite count_cons);
    rewrite !calls_count by reflexivity;
    rewrite ?check_status_count by reflexivity;
    rewrite Hf, Hp, Hs; unfold count; simpl; repeat split; lia.
Qed.

(** X17: in the poll loop every pass posts exactly one fetch, the loop
    sleeps exactly as often as it posts the state, and at most once per
    pass; a loop that returns has made one pass per cycle. *)
Theorem poll_loop_counts self cycles server :
  let trace := fst (poll_loop deserialize self cycles server) in
  count is_post_state trace = count is_sleep trace /\
  (count is_sleep trace <= count is_fetch trace)%nat /\
  (count is_fetch trace <= List.length cycles)%nat /\
  (forall server',
      snd (poll_loop deserialize self cycles server) = Returned server' ->
      count is_fetch trace = List.length cycles).
Proof.
  revert server. induction cycles as [|cycle cycles IH]; intros server.
  - simpl. repeat split; auto.
  - cbn [poll_loop].
    pose proof (poll_iteration_counts self cycle server) as Hit.
    cbv zeta in Hit.
    destruct (poll_iteration deserialize self cycle server)
      as [trace [s|]]; cbn [fst] in Hit.
    + specialize (IH s). cbv zeta in IH.
      destruct (poll_loop deserialize self cycles s) as [trace' outcome].
      cbn [fst snd] in *. rewrite !count_app.
      destruct Hit as (Hf & Hp & Hs). destruct IH as (IHp & IHs & IHf & IHr).
      repeat split; try lia.
      * simpl. lia.
      * intros server' E. rewrite (IHr server' E). simpl. lia.
    + cbn [fst snd]. destruct Hit as (Hf & Hp & Hs).
      repeat split; try lia.
      * simpl. lia.
      * discriminate.
Qed.

End Passes.


(** A task array whose second element the decoder fails on: the pass ends
    the process after the first task has been applied. *)
Example poll_iteration_decoder_failure :
  poll_iteration sample_deserialize sample_gateway
    (mkCycle
       (Some (mkResponse 200
                (Parsed (JObject [("tasks"%string,
                                   JArray [JBool true; JNull; JNumber 4])]))))
       accepted)
    initial
  = ([EvPost Fetch; EvCall (POWER true)], Terminated).
Proof. reflexivity. Qed.

Lemma malformed_tasks_cycle_witness :
  exists message,
    (message = MalformedResponseBody \/ message = TasksNotAnArray) /\
    poll_iteration sample_deserialize sample_gateway
                   (mkCycle accepted accepted) initial
    = ([EvPost Fetch; EvLog LevelWarn message], Returned initial).
Proof.
  apply (malformed_tasks_cycle sample_deserialize sample_gateway
           (mkCycle accepted accepted) initial (JObject []));
    reflexivity.
Defined.


Lemma poll_loop_counts_witness :
  count is_fetch
        (fst (poll_loop sample_deserialize sample_gateway
                        [mkCycle bad_password accepted;
                         mkCycle accepted accepted]
                        initial))
  = 2%nat.
Proof.
  pose proof (poll_loop_counts sample_deserialize sample_gateway
                [mkCycle bad_password accepted; mkCycle accepted accepted]
                initial) as H.
  cbv zeta in H. destruct H as (_ & _ & _ & H).
  apply (H initial). reflexivity.
Defined.

Lemma update_loop_offline_count_witness :
  count (is_post_online false)
        (fst (update_loop sample_deserialize
                (mkEnvironment
                   accepted
                   (Some (mkResponse 200
                            (Parsed (JObject [("password"%string,
                                               JString "s3")]))))
                   [mkCycle accepted accepted] accepted)
                sample_gateway initial))
  = 1%nat.
Proof.
  apply (update_loop_offline_count sample_deserialize
           (mkEnvironment
              accepted
              (Some (mkResponse 200
                       (Parsed (JObject [("password"%string,
                                          JString "s3")]))))
              [mkCycle accepted accepted] accepted)
           sample_gateway initial _ _ eq_refl).
Defined.

(** ** The monitor *)

Lemma append_bounded_latest (s : string) (buffer : list string) :
  (List.length buffer <= Monitor.MAX_CONSOLE_BUFFER_SIZE)%nat ->
  Monitor.append_bounded s buffer
  = skipn (List.length (buffer ++ [s]) - Monitor.MAX_CONSOLE_BUFFER_SIZE)
          (buffer ++ [s]).
Proof.
  unfold Monitor.append_bounded.
  assert (Hpos : (0 < Monitor.MAX_CONSOLE_BUFFER_SIZE)%nat)
    by (unfold Monitor.MAX_CONSOLE_BUFFER_SIZE; lia).
  revert Hpos. generalize Monitor.MAX_CONSOLE_BUFFER_SIZE as n.
  intros n Hpos Hlen. rewrite length_app. cbn [List.length].
  destruct (Nat.eqb_spec (List.length buffer) n) as [E|N].
  - destruct buffer as [|h t]; cbn [List.length] in *; [lia|].
    replace (S (List.length t) + 1 - n)%nat with 1%nat by lia.
    reflexivity.
  - replace (List.length buffer + 1 - n)%nat with 0%nat by lia.
    reflexivity.
Qed.

Lemma append_bounded_fold (messages buffer : list string) :
  (List.length buffer <= Monitor.MAX_CONSOLE_BUFFER_SIZE)%nat ->
  fold_left (fun b s => Monitor.append_bounded s b) messages buffer
  = skipn (List.length (buffer ++ messages) - Monitor.MAX_CONSOLE_BUFFER_SIZE)
          (buffer ++ messages).
Proof.
  revert buffer. induction messages as [|s messages IH]; intros buffer Hlen.
  - simpl. rewrite app_nil_r.
    replace (List.length buffer - Monitor.MAX_CONSOLE_BUFFER_SIZE)%nat
      with 0%nat by lia.
    reflexivity.
  - cbn [fold_left].
    pose proof (append_bounded_latest s buffer Hlen) as E.
    assert (Hlen1 : (List.length (Monitor.append_bounded s buffer)
                     <= Monitor.MAX_CONSOLE_BUFFER_SIZE)%nat).
    { rewrite E, length_skipn, length_app. cbn [List.length]. lia. }
    rewrite (IH _ Hlen1), E.
    set (k := (List.length (buffer ++ [s])
               - Monitor.MAX_CONSOLE_BUFFER_SIZE)%nat).
    assert (Hk : (k <= List.length (buffer ++ [s]))%nat) by (subst k; lia).
    assert (Happ : skipn k (buffer ++ [s]) ++ messages
                   = skipn k ((buffer ++ [s]) ++ messages)).
    { rewrite (skipn_app k (buffer ++ [s]) messages).
      replace (k - List.length (buffer ++ [s]))%nat with 0%nat by lia.
      reflexivity. }
    rewrite Happ, skipn_skipn, length_skipn, <- app_assoc. simpl app.
    f_equal. subst k. rewrite !length_app in *. cbn [List.length] in *. lia.
Qed.

Lemma log_device_fold (messages : list string) (m : Monitor.Monitor) :
  Monitor._is_running m = true ->
  Monitor._device_log_buffer
    (fold_left (fun m s => Monitor.log_device s m) messages m)
  = fold_left (fun b s => Monitor.append_bounded s b) messages
              (Monitor._device_log_buffer m).
Proof.
  revert m. induction messages as [|s messages IH]; intros m Hrun.
  - reflexivity.
  - cbn [fold_left]. rewrite IH.
    + unfold Monitor.log_device. now rewrite Hrun.
    + unfold Monitor.log_device. now rewrite Hrun.
Qed.

(** X20: the device log of a running monitor is a bounded window: after
    any number of [log_device] calls on a buffer of at most 256 lines it
    holds the latest 256 lines of the old buffer followed by the logged
    messages, in order, and never more than 256; a monitor that is not
    running logs nothing. *)
Theorem log_device_window (messages : list string) (m : Monitor.Monitor) :
  (List.length (Monitor._device_log_buffer m)
   <= Monitor.MAX_CONSOLE_BUFFER_SIZE)%nat ->
  let logged := fold_left (fun m s => Monitor.log_device s m) messages m in
  (Monitor._is_running m = true ->
   Monitor._device_log_buffer logged
   = skipn (List.length (Monitor._device_log_buffer m ++ messages)
            - Monitor.MAX_CONSOLE_BUFFER_SIZE)
           (Monitor._device_log_buffer m ++ messages) /\
   (List.length (Monitor._device_log_buffer logged)
    <= Monitor.MAX_CONSOLE_BUFFER_SIZE)%nat) /\
  (Monitor._is_running m = false -> logged = m).
Proof.
  intros Hlen logged. split.
  - intros Hrun. subst logged.
    rewrite log_device_fold, append_bounded_fold by assumption.
    split; [reflexivity|].
    rewrite length_skipn. lia.
  - intros Hstop. subst logged.
    induction messages as [|s messages IH]; [reflexivity|].
    cbn [fold_left]. unfold Monitor.log_device at 2. rewrite Hstop.
    exact IH.
Qed.

Lemma log_device_window_witness :
  Monitor._device_log_buffer
    (fold_left (fun m s => Monitor.log_device s m)
               ["a"; "b"; "c"]%string
               (Monitor.mkMonitor true false true 0 0 [] ["z"%string] []))
  = ["z"; "a"; "b"; "c"]%string.
Proof.
  pose proof (log_device_window
                ["a"; "b"; "c"]%string
                (Monitor.mkMonitor true false true 0 0 [] ["z"%string] []))
    as H.
  cbv zeta in H. destruct H as [H _].
  - unfold Monitor.MAX_CONSOLE_BUFFER_SIZE. simpl. lia.
  - destruct (H eq_refl) as [E _]. rewrite E. reflexivity.
Defined.

Lemma server_set_is_on_server on m server :
  snd (Monitor.server_set_is_on on (m, server)) = set_is_on on server.
Proof.
  unfold Monitor.server_set_is_on.
  destruct (Bool.eqb (is_on (_device_state server)) on) eqn:E; simpl.
  - symmetry. apply set_is_on_same. now apply Bool.eqb_prop.
  - reflexivity.
Qed.

Lemma server_set_speed_server speed m server :
  snd (Monitor.server_set_speed speed (m, server)) = set_speed speed server.
Proof.
  unfold Monitor.server_set_speed, set_speed.
  destruct (negb (is_on (_device_state server)) && (speed >? 0)).
  - pose proof (server_set_is_on_server true m server) as E.
    destruct (Monitor.server_set_is_on true (m, server)) as [m' server'].
    simpl in *. now subst.
  - destruct (is_on (_device_state server) && (speed =? 0)).
    + apply server_set_is_on_server.
    + reflexivity.
Qed.

Lemma server_set_is_on_slider on ms :
  Monitor._current_slider_speed (fst (Monitor.server_set_is_on on ms))
  = Monitor._current_slider_speed (fst ms) /\
  Monitor._previous_slider_speed (fst (Monitor.server_set_is_on on ms))
  = Monitor._previous_slider_speed (fst ms) /\
  Monitor._is_mouse_down (fst (Monitor.server_set_is_on on ms))
  = Monitor._is_mouse_down (fst ms) /\
  Monitor._auto_power_state (fst (Monitor.server_set_is_on on ms))
  = Monitor._auto_power_state (fst ms).
Proof.
  destruct ms as [m server]. unfold Monitor.server_set_is_on.
  destruct (Bool.eqb (is_on (_device_state server)) on); simpl; auto.
Qed.

Lemma server_set_speed_slider speed ms :
  Monitor._current_slider_speed (fst (Monitor.server_set_speed speed ms))
  = Monitor._current_slider_speed (fst ms) /\
  Monitor._previous_slider_speed (fst (Monitor.server_set_speed speed ms))
  = Monitor._previous_slider_speed (fst ms) /\
  Monitor._is_mouse_down (fst (Monitor.server_set_speed speed ms))
  = Monitor._is_mouse_down (fst ms).
Proof.
  destruct ms as [m server]. unfold Monitor.server_set_speed.
  destruct (negb (is_on (_device_state server)) && (speed >? 0)).
  - pose proof (server_set_is_on_slider true (m, server)) as H.
    destruct (Monitor.server_set_is_on true (m, server)) as [m' server'].
    simpl in *. tauto.
  - destruct (is_on (_device_state server) && (speed =? 0)).
    + pose proof (server_set_is_on_slider false (m, server)). tauto.
    + simpl. auto.
Qed.

Lemma server_set_speed_pair speed ms :
  snd (Monitor.server_set_speed speed ms) = set_speed speed (snd ms).
Proof. destruct ms. apply server_set_speed_server. Qed.

Lemma conditional_set_is_on (c on : bool) ms :
  let after := if c then Monitor.server_set_is_on on ms else ms in
  snd after = (if c then set_is_on on (snd ms) else snd ms) /\
  Monitor._current_slider_speed (fst after)
  = Monitor._current_slider_speed (fst ms) /\
  Monitor._previous_slider_speed (fst after)
  = Monitor._previous_slider_speed (fst ms) /\
  Monitor._is_mouse_down (fst after) = Monitor._is_mouse_down (fst ms) /\
  Monitor._auto_power_state (fst after) = Monitor._auto_power_state (fst ms).
Proof.
  destruct c; cbv zeta; [|auto].
  split; [destruct ms; apply server_set_is_on_server|].
  apply server_set_is_on_slider.
Qed.

(** The calls of [set_is_on] that the automatic power state makes before
    [set_speed] do not change what [set_speed] arrives at. *)
Lemma auto_power_redundant (auto : bool) (cur : Z) (server : Server) :
  let s1 :=
    if auto && negb (is_on (_device_state server)) && (cur >? 0)
    then set_is_on true server else server in
  let s2 :=
    if auto && is_on (_device_state s1) && (cur =? 0)
    then set_is_on false s1 else s1 in
  set_speed cur s2 = set_speed cur server.
Proof.
  cbv zeta.
  destruct auto; cbn [andb]; [|reflexivity].
  destruct (is_on (_device_state server)) eqn:Hon; cbn [negb andb].
  - rewrite Hon. cbn [andb].
    destruct (Z.eqb_spec cur 0) as [->|Hz]; [|reflexivity].
    assert (E : set_speed 0 server = set_is_on false server).
    { unfold set_speed. rewrite Hon. reflexivity. }
    rewrite <- E. apply set_speed_idempotent.
  - destruct (Z.gtb_spec cur 0) as [Hp|Hp].
    + rewrite set_is_on_is_on. cbn [andb].
      destruct (Z.eqb_spec cur 0) as [Hz|Hz]; [lia|].
      unfold set_speed. rewrite set_is_on_is_on, Hon. cbn [negb andb].
      destruct (Z.eqb_spec cur 0); [lia|].
      destruct (Z.gtb_spec cur 0); [reflexivity | lia].
    + rewrite Hon. reflexivity.
Qed.

(** X21: when the mouse is up and the slider has moved,
    [update_speed_if_needed] does to the server exactly what
    [set_speed] with the slider's value does, whether the automatic power
    state is enabled or not (the calls of [set_is_on] it makes first are
    the ones [set_speed] would make itself), and it records the slider's
    value as the previous one; otherwise it changes nothing.  A second call
    right after the first therefore changes nothing. *)
Theorem update_speed_if_needed_server (m : Monitor.Monitor) (server : Server) :
  let after := Monitor.update_speed_if_needed (m, server) in
  snd after
  = (if Monitor._is_mouse_down m
        || (Monitor._previous_slider_speed m
            =? Monitor._current_slider_speed m)
     then server
     else set_speed (Monitor._current_slider_speed m) server) /\
  (Monitor._is_mouse_down m = false ->
   Monitor._previous_slider_speed (fst after)
   = Monitor._current_slider_speed (fst after)) /\
  Monitor.update_speed_if_needed after = after.
Proof.
  cbv zeta.
  assert (Hserver :
            snd (Monitor.update_speed_if_needed (m, server))
            = (if Monitor._is_mouse_down m
                  || (Monitor._previous_slider_speed m
                      =? Monitor._current_slider_speed m)
               then server
               else set_speed (Monitor._current_slider_speed m) server)).
  { unfold Monitor.update_speed_if_needed.
    destruct (Monitor._is_mouse_down m
              || (Monitor._previous_slider_speed m
                  =? Monitor._current_slider_speed m)); [reflexivity|].
    cbv zeta.
    match goal with
    | |- context [if ?c then Monitor.server_set_is_on true ?x else _] =>
        pose proof (conditional_set_is_on c true x) as (A1 & A2 & _ & _ & A5);
        set (ms1 := if c then Monitor.server_set_is_on true x else x) in *
    end.
    match goal with
    | |- context [if ?c then Monitor.server_set_is_on false ?x else _] =>
        pose proof (conditional_set_is_on c false x) as (B1 & B2 & _);
        set (ms2 := if c then Monitor.server_set_is_on false x else x) in *
    end.
    cbv zeta in *. rewrite server_set_speed_pair, B1, B2, A1, A2, A5.
    cbn [fst snd Monitor._auto_power_state Monitor._current_slider_speed].
    apply auto_power_redundant. }
  assert (Hslider :
            Monitor._is_mouse_down m = false ->
            Monitor._previous_slider_speed
              (fst (Monitor.update_speed_if_needed (m, server)))
            = Monitor._current_slider_speed
                (fst (Monitor.update_speed_if_needed (m, server))) /\
            Monitor._is_mouse_down
              (fst (Monitor.update_speed_if_needed (m, server))) = false).
  { intros Hup. unfold Monitor.update_speed_if_needed. rewrite Hup.
    cbn [orb].
    destruct (Z.eqb_spec (Monitor._previous_slider_speed m)
                         (Monitor._current_slider_speed m)) as [E|N].
    { cbn [fst]. auto. }
    match goal with
    | |- context [Monitor.server_set_speed ?v ?x] =>
        pose proof (server_set_speed_slider v x) as (S1 & S2 & S3);
        rewrite S1, S2, S3
    end.
    match goal with
    | |- context [if ?c then Monitor.server_set_is_on false ?x else _] =>
        pose proof (server_set_is_on_slider false x) as (T1 & T2 & T3 & _);
        destruct c; rewrite ?T1, ?T2, ?T3
    end;
    match goal with
    | |- context [if ?c then Monitor.server_set_is_on true ?x else _] =>
        pose proof (server_set_is_on_slider true x) as (U1 & U2 & U3 & _);
        destruct c; rewrite ?U1, ?U2, ?U3
    end; cbn [fst]; auto. }
  split; [exact Hserver|]. split; [intros Hup; now apply Hslider|].
  destruct (Monitor._is_mouse_down m) eqn:Hdown.
  - unfold Monitor.update_speed_if_needed at 2. rewrite Hdown. cbn [orb].
    unfold Monitor.update_speed_if_needed. now rewrite Hdown.
  - destruct (Hslider eq_refl) as [Hprev Hup].
    destruct (Monitor.update_speed_if_needed (m, server)) as [m' server'].
    cbn [fst] in *. unfold Monitor.update_speed_if_needed.
    rewrite Hup, Hprev, Z.eqb_refl. reflexivity.
Qed.

Lemma update_speed_if_needed_server_witness :
  snd (Monitor.update_speed_if_needed
         (Monitor.mkMonitor true false true 4 0 [] [] [], initial))
  = set_speed 4 initial /\
  Monitor._previous_slider_speed
    (fst (Monitor.update_speed_if_needed
            (Monitor.mkMonitor true false true 4 0 [] [] [], initial)))
  = 4.
Proof.
  pose proof (update_speed_if_needed_server
                (Monitor.mkMonitor true false true 4 0 [] [] []) initial)
    as H.
  cbv zeta in H. destruct H as (Hs & Hp & _). split.
  - rewrite Hs. reflexivity.
  - rewrite (Hp eq_refl). reflexivity.
Defined.

(** ** The running flag *)

Lemma set_is_on_running on self :
  _is_running (set_is_on on self) = _is_running self.
Proof.
  unfold set_is_on.
  destruct (Bool.eqb (is_on (_device_state self)) on); reflexivity.
Qed.

Lemma set_speed_running speed self :
  _is_running (set_speed speed self) = _is_running self.
Proof.
  unfold set_speed.
  destruct (negb (is_on (_device_state self)) && (speed >? 0));
    [|destruct (is_on (_device_state self) && (speed =? 0))];
    rewrite ?set_speed_steps_running, ?set_is_on_running; reflexivity.
Qed.

Lemma set_mode_running m self :
  _is_running (set_mode m self) = _is_running self.
Proof.
  unfold set_mode. destruct (negb (is_on (_device_state self))); reflexivity.
Qed.

Lemma apply_running op self :
  is_exit op = false -> _is_running (apply op self) = _is_running self.
Proof.
  destruct op as [on|speed|m|reads|command]; simpl; intros Hexit.
  - apply set_is_on_running.
  - apply set_speed_running.
  - apply set_mode_running.
  - now rewrite receive_frame.
  - unfold command_step, command_power, command_mode, command_lower,
      command_higher.
    rewrite Hexit.
    case_strings; try reflexivity.
    + apply set_is_on_running.
    + destruct (negb (is_on (_device_state self)));
        [reflexivity | apply set_mode_running].
    + destruct (negb (is_on (_device_state self))
                || (get_target_speed self =? 0));
        [reflexivity | apply set_speed_running].
    + destruct (negb (is_on (_device_state self))
                || (get_target_speed self =? MAX_SPEED));
        [reflexivity | apply set_speed_running].
Qed.

(** X11: only the console command [exit] stops the server: along a
    sequence of operations without it the running flag keeps its value, and
    a sequence that holds it ends with the flag cleared. *)
Theorem only_exit_stops (ops : list Op) (self : Server) :
  (Forall (fun op => is_exit op = false) ops ->
   _is_running (run ops self) = _is_running self) /\
  (Exists (fun op => is_exit op = true) ops ->
   _is_running (run ops self) = false).
Proof.
  split.
  - intros Hall. revert self.
    induction Hall as [|op ops Hop Hall IH]; intros self; simpl; auto.
    rewrite IH. now apply apply_running.
  - intros Hex. revert self.
    induction ops as [|op ops IH] using rev_ind; intros self.
    + inversion Hex.
    + rewrite run_app. simpl.
      destruct (is_exit op) eqn:E.
      * destruct op as [on|speed|m|reads|command]; try discriminate E.
        simpl in *. unfold command_step.
        destruct (String.eqb_spec command "exit") as [->|N];
          [reflexivity | discriminate E].
      * rewrite apply_running by assumption. apply IH.
        apply Exists_app in Hex. destruct Hex as [Hex|Hex]; auto.
        inversion Hex as [x l Hx|x l Hx]; subst;
          [congruence | inversion Hx].
Qed.

Lemma only_exit_stops_witness :
  _is_running (run [OpSetSpeed 3; OpCommand "power"; OpCommand "help"]
                   initial) = true /\
  _is_running (run [OpSetSpeed 3; OpCommand "exit"; OpSetIsOn true]
                   initial) = false.
Proof.
  split.
  - rewrite (proj1 (only_exit_stops
                      [OpSetSpeed 3; OpCommand "power"; OpCommand "help"]
                      initial));
      [reflexivity | repeat constructor].
  - apply (proj2 (only_exit_stops
                    [OpSetSpeed 3; OpCommand "exit"; OpSetIsOn true]
                    initial)).
    apply Exists_cons_tl, Exists_cons_hd. reflexivity.
Defined.
